(** * GPU cloud platform front end: cost calculator, dashboard instance
      actions and the landing page counter.

    The TypeScript sources are embedded shallowly.  A JavaScript [number] is
    an IEEE 754 binary64 value, modelled by the kernel's primitive [float]
    (the same format, round to nearest even); [Number.prototype.toFixed] is
    modelled on the exact rational value of the float, following ECMA-262.
    React state is passed explicitly: a state updater [prev => next] is a
    function on the state, and [Math.random] reads from an explicit source
    of draws. *)

From Stdlib Require Import ZArith QArith Qround List String Ascii Bool Lia Floats DecimalString.
Import ListNotations.

Set Warnings "-inexact-float".

Local Open Scope Z_scope.

(** ** JavaScript numbers *)

Module JsNumber.

(** The outcome of a call of [toFixed]. *)
Inductive fixed_result : Type :=
| Digits (s : string)        (* the string returned *)
| RangeError                 (* fractionDigits outside 0..100 *)
| ViaToString (x : float).   (* |x| >= 10^21: Number::toString, not modelled *)

(** [n] is the integer for which [n / 10^f - m * 2^e] is as close to zero
    as possible, the larger one when there are two: the floor of
    [m * 2^e * 10^f + 1/2]. *)
Definition nearest_scaled (m : positive) (e : Z) (f : nat) : Z :=
  let scale := 10 ^ Z.of_nat f in
  if 0 <=? e
  then Z.pos m * 2 ^ e * scale
  else (2 * Z.pos m * scale + 2 ^ (- e)) / 2 ^ (1 - e).

(** [10^21 <= m * 2^e] *)
Definition at_least_1e21 (m : positive) (e : Z) : bool :=
  if 0 <=? e
  then 10 ^ 21 <=? Z.pos m * 2 ^ e
  else 10 ^ 21 * 2 ^ (- e) <=? Z.pos m.

Definition decimal_digits (n : Z) : string :=
  NilZero.string_of_uint (N.to_uint (Z.to_N n)).

Fixpoint zeros (k : nat) : string :=
  match k with
  | O => EmptyString
  | S k' => String "0" (zeros k')
  end.

(** Steps 11.b-c of toFixed: the digits of [n], padded on the left to
    [f + 1] characters, with a point before the last [f] of them. *)
Definition fixed_digits (n : Z) (f : nat) : string :=
  let m := decimal_digits n in
  match f with
  | O => m
  | S _ =>
      let k := String.length m in
      let m' := if (k <=? f)%nat then (zeros (f + 1 - k) ++ m)%string else m in
      let k' := String.length m' in
      (substring 0 (k' - f) m' ++ "." ++ substring (k' - f) f m')%string
  end.

Definition toFixed (x : float) (f : nat) : fixed_result :=
  if (100 <? f)%nat then RangeError
  else
    match Prim2SF x with
    | S754_nan => Digits "NaN"
    | S754_infinity false => Digits "Infinity"
    | S754_infinity true => Digits "-Infinity"
    | S754_zero _ => Digits (fixed_digits 0 f)
    | S754_finite s m e =>
        if at_least_1e21 m e then ViaToString x
        else
          Digits ((if s then "-" else "") ++ fixed_digits (nearest_scaled m e f) f)
    end.

End JsNumber.

(** ** components/CostCalculator.tsx *)

Module CostCalculator.
Import JsNumber.
Local Open Scope float_scope.

Record Price : Type := { aws : float; ours : float }.

(** The object literal [gpuPrices], keyed by the GPU type. *)
Definition gpuPrices : list (string * Price) :=
  [ ("T4"%string,   {| aws := 3.06;  ours := 0.99 |});
    ("A10G"%string, {| aws := 5.12;  ours := 1.99 |});
    ("A100"%string, {| aws := 12.24; ours := 3.99 |}) ].

(** The own properties of [gpuPrices]: [lookup gpuPrices k] is the entry
    stored under the key [k], if there is one. *)
Fixpoint lookup (t : list (string * Price)) (k : string) : option Price :=
  match t with
  | [] => None
  | (k', p) :: t' => if String.eqb k' k then Some p else lookup t' k
  end.

(** The four values computed on every render. *)
Record Costs : Type := {
  awsCost : float;
  ourCost : float;
  savings : float;
  savingsPercent : fixed_result
}.

(** The names every object inherits from [Object.prototype] (ECMA-262,
    sections 20.1.3 and B.2.2).  [gpuPrices] is an object literal, so for one
    of these names [gpuPrices[gpuType]] is not [undefined] but the inherited
    function (or, for [__proto__], the prototype object), on which the
    properties [aws] and [ours] are [undefined]. *)
Definition object_prototype_members : list string :=
  [ "constructor"; "hasOwnProperty"; "isPrototypeOf"; "propertyIsEnumerable";
    "toLocaleString"; "toString"; "valueOf"; "__proto__";
    "__defineGetter__"; "__defineSetter__"; "__lookupGetter__";
    "__lookupSetter__" ]%string.

(** Lines 17-20.  For a key of the table the two prices are read from its
    entry.  For an inherited name both reads give [undefined], which the
    multiplication turns into [NaN].  For any other string
    [gpuPrices[gpuType]] is [undefined] and reading [.aws] of it throws,
    hence [None]. *)
Definition costs (hours : float) (gpuType : string) : option Costs :=
  let compute (aws_price ours_price : float) :=
    let awsCost := hours * aws_price in
    let ourCost := hours * ours_price in
    let savings := awsCost - ourCost in
    let savingsPercent := toFixed ((savings / awsCost) * 100) 0 in
    {| awsCost := awsCost; ourCost := ourCost;
       savings := savings; savingsPercent := savingsPercent |} in
  match lookup gpuPrices gpuType with
  | Some p => Some (compute (aws p) (ours p))
  | None =>
      if existsb (String.eqb gpuType) object_prototype_members
      then Some (compute nan nan)
      else None
  end.

(** What the component shows: the three amounts with [toFixed(2)] and the
    percentage string. *)
Record View : Type := {
  awsCostText : fixed_result;
  ourCostText : fixed_result;
  savingsText : fixed_result;
  savingsPercentText : fixed_result
}.

Definition render (hours : float) (gpuType : string) : option View :=
  match costs hours gpuType with
  | None => None
  | Some c =>
      Some {| awsCostText := toFixed (awsCost c) 2;
              ourCostText := toFixed (ourCost c) 2;
              savingsText := toFixed (savings c) 2;
              savingsPercentText := savingsPercent c |}
  end.

(** The component state: [useState(100)], [useState('A10G')]. *)
Definition initial_hours : float := 100.
Definition initial_gpuType : string := "A10G".

(** The values the range input (min 10, max 730, default step 1) hands to
    [setHours(Number(e.target.value))]. *)
Definition slider_hours (n : Z) : float := of_uint63 (Uint63.of_Z n).

(** The state of the component and the two [onChange] handlers. *)
Record State : Type := { hours : float; gpuType : string }.

Definition initial_state : State :=
  {| hours := initial_hours; gpuType := initial_gpuType |}.

(** The values of the three [option] elements of the select. *)
Definition gpu_options : list string := ["T4"; "A10G"; "A100"]%string.

Inductive Event : Type :=
| GpuTypeChanged (value : string)   (* [setGpuType(e.target.value)] *)
| HoursChanged (value : Z).         (* [setHours(Number(e.target.value))] *)

Definition handle (st : State) (ev : Event) : State :=
  match ev with
  | GpuTypeChanged v => {| hours := hours st; gpuType := v |}
  | HoursChanged n => {| hours := slider_hours n; gpuType := gpuType st |}
  end.

(** The events the two controls can fire: the select offers its options,
    the range input an integer between its [min] and [max]. *)
Definition fired_by_controls (ev : Event) : Prop :=
  match ev with
  | GpuTypeChanged v => In v gpu_options
  | HoursChanged n => (10 <= n <= 730)%Z
  end.

End CostCalculator.

(** ** The dashboard with the instance list and [handleInstanceAction] *)

Module Dashboard.
Local Open Scope float_scope.

(** [status: 'running' | 'paused' | 'stopped'] *)
Inductive Status : Type := running | paused | stopped.

Record Instance : Type := {
  id : string;
  name : string;
  gpu_type : string;
  status : Status;
  cost_per_hour : float;
  total_cost : float;
  savings : float;
  gpu_utilization : float;
  uptime : string;
  public_ip : string
}.

(** [action: 'pause' | 'resume' | 'delete'] *)
Inductive Action : Type := pause | resume | delete.

(** [{ ...instance, status: s, gpu_utilization: u }] *)
Definition with_status_utilization (instance : Instance) (s : Status) (u : float)
  : Instance :=
  {| id := id instance;
     name := name instance;
     gpu_type := gpu_type instance;
     status := s;
     cost_per_hour := cost_per_hour instance;
     total_cost := total_cost instance;
     savings := savings instance;
     gpu_utilization := u;
     uptime := uptime instance;
     public_ip := public_ip instance |}.

(** The argument of [useState<Instance[]>]. *)
Definition initial_instances : list Instance :=
  [ {| id := "gpu-1"; name := "Llama-3-Training"; gpu_type := "A100";
       status := running; cost_per_hour := 3.99; total_cost := 127.68;
       savings := 89.38; gpu_utilization := 78; uptime := "32h 15m";
       public_ip := "20.124.56.78" |};
    {| id := "gpu-2"; name := "Stable-Diffusion-XL"; gpu_type := "A10G";
       status := paused; cost_per_hour := 1.99; total_cost := 45.77;
       savings := 32.04; gpu_utilization := 0; uptime := "23h 0m";
       public_ip := "20.124.56.79" |};
    {| id := "gpu-3"; name := "Jupyter-Notebook"; gpu_type := "T4";
       status := running; cost_per_hour := 0.99; total_cost := 15.84;
       savings := 11.09; gpu_utilization := 12; uptime := "16h 0m";
       public_ip := "20.124.56.80" |} ].

(** Computations that may call [Math.random]: the state is the number of
    calls made so far. *)
Definition Rand (A : Type) : Type := nat -> A * nat.

Definition ret {A : Type} (a : A) : Rand A := fun k => (a, k).

Definition bind {A B : Type} (m : Rand A) (f : A -> Rand B) : Rand B :=
  fun k => let (a, k') := m k in f a k'.

Notation "x <- m ;; f" := (bind m (fun x => f))
  (at level 61, m at next level, right associativity).

Section Handler.
(** [random k] is what the call number [k] of [Math.random] returns. *)
Variable random : nat -> float.

Definition Math_random : Rand float := fun k => (random k, S k).

(** The callback given to [prev.map]. *)
Definition update_instance (id0 : string) (action : Action) (instance : Instance)
  : Rand Instance :=
  if String.eqb (id instance) id0 then
    match action with
    | pause => ret (with_status_utilization instance paused 0)
    | resume =>
        r <- Math_random ;;
        ret (with_status_utilization instance running (r * 100))
    | delete => ret instance
    end
  else ret instance.

(** [Array.prototype.map]: the callback runs on the elements in index
    order. *)
Fixpoint map_instances (f : Instance -> Rand Instance) (l : list Instance)
  : Rand (list Instance) :=
  match l with
  | [] => ret []
  | instance :: l' =>
      instance' <- f instance ;;
      l'' <- map_instances f l' ;;
      ret (instance' :: l'')
  end.

(** [prev.filter(i => i.id !== id)] *)
Definition remove_id (id0 : string) (l : list Instance) : list Instance :=
  filter (fun i => negb (String.eqb (id i) id0)) l.

(** [handleInstanceAction]: the first updater always runs, the second one
    is queued after it when the action is [delete].  Each updater is applied
    once, as React does in a production build; with [reactStrictMode] a
    development build invokes an updater twice and keeps one of the two
    results, so there the number of calls of [Math.random] doubles while
    the shape of the resulting list is the same. *)
Definition handleInstanceAction (id0 : string) (action : Action)
  (prev : list Instance) : Rand (list Instance) :=
  l <- map_instances (update_instance id0 action) prev ;;
  match action with
  | delete => ret (remove_id id0 l)
  | _ => ret l
  end.

(** A finite sequence of calls, oldest first. *)
Fixpoint handle_all (calls : list (string * Action)) (l : list Instance)
  : Rand (list Instance) :=
  match calls with
  | [] => ret l
  | (id0, action) :: calls' =>
      l' <- handleInstanceAction id0 action l ;;
      handle_all calls' l'
  end.
End Handler.

(** [Math.random] returns a number in [0, 1). *)
Definition in_unit_interval (r : float) : Prop :=
  (0 <=? r) = true /\ (r <? 1) = true.

(** The record invariant of the data model. *)
Definition status_consistent (i : Instance) : Prop :=
  (status i = paused -> gpu_utilization i = 0)
  /\ (status i = running \/ status i = paused \/ status i = stopped).

(** What [update_instance] makes of a record under [pause]. *)
Definition paused_copy (id0 : string) (i : Instance) : Instance :=
  if String.eqb (id i) id0 then with_status_utilization i paused 0 else i.

(** The number of records with identifier [id0] in a list. *)
Definition count_id (id0 : string) (l : list Instance) : nat :=
  List.length (filter (fun i => String.eqb (id i) id0) l).

(** What [update_instance] makes of a list under [resume] when the next
    call of [Math.random] is call number [k]. *)
Fixpoint resumed_from (random : nat -> float) (id0 : string) (k : nat)
  (l : list Instance) : list Instance :=
  match l with
  | [] => []
  | i :: l' =>
      if String.eqb (id i) id0
      then with_status_utilization i running (random k * 100)
             :: resumed_from random id0 (S k) l'
      else i :: resumed_from random id0 k l'
  end.

(** *** What the dashboard shows *)

(** [a === b] on statuses *)
Definition status_eqb (a b : Status) : bool :=
  match a, b with
  | running, running | paused, paused | stopped, stopped => true
  | _, _ => false
  end.

(** [instances.filter(i => i.status === s).length] *)
Definition count_status (s : Status) (l : list Instance) : nat :=
  List.length (filter (fun i => status_eqb (status i) s) l).

(** [instances.reduce((acc, i) => acc + i.total_cost, 0)] *)
Definition total_spend (l : list Instance) : float :=
  fold_left (fun acc i => acc + total_cost i) l 0.

(** The four cards of the overview that depend on the instance list. *)
Record Overview : Type := {
  active_gpus : nat;
  running_gpus : nat;
  current_spend : JsNumber.fixed_result;
  aws_spend : JsNumber.fixed_result;
  auto_paused : nat
}.

Definition overview (l : list Instance) : Overview :=
  {| active_gpus := List.length l;
     running_gpus := count_status running l;
     current_spend := JsNumber.toFixed (total_spend l) 2;
     aws_spend := JsNumber.toFixed (total_spend l * 3) 0;
     auto_paused := count_status paused l |}.

(** The utilisation and savings cells of a row. *)
Definition utilization_text (instance : Instance) : JsNumber.fixed_result :=
  JsNumber.toFixed (gpu_utilization instance) 0.

Definition saved_text (instance : Instance) : JsNumber.fixed_result :=
  JsNumber.toFixed (savings instance) 2.

(** The buttons of a row, by title, with the call each one makes: Pause on
    a running instance and Resume on any other, then Delete. *)
Definition row_buttons (instance : Instance) : list (string * (string * Action)) :=
  [ (if status_eqb (status instance) running
     then ("Pause"%string, (id instance, pause))
     else ("Resume"%string, (id instance, resume)));
    ("Delete"%string, (id instance, delete)) ].

(** A click on button number [button] of row number [row]; a click that
    hits nothing changes nothing. *)
Definition click (random : nat -> float) (row button : nat) (l : list Instance)
  : Rand (list Instance) :=
  match nth_error l row with
  | Some instance =>
      match nth_error (row_buttons instance) button with
      | Some (_, (id0, action)) => handleInstanceAction random id0 action l
      | None => ret l
      end
  | None => ret l
  end.

(** The fields no action writes. *)
Definition same_static_fields (i j : Instance) : Prop :=
  id i = id j /\ name i = name j /\ gpu_type i = gpu_type j
  /\ cost_per_hour i = cost_per_hour j /\ total_cost i = total_cost j
  /\ savings i = savings j /\ uptime i = uptime j /\ public_ip i = public_ip j.

(** A utilisation between 0 and 100, 100 excluded. *)
Definition utilization_in_range (i : Instance) : Prop :=
  (0 <=? gpu_utilization i) = true /\ (gpu_utilization i <? 100) = true.

End Dashboard.

(** ** The landing page and its animated savings counter *)

Module LandingPage.
Local Open Scope float_scope.

(** [useState(0)] and [useState(10)] *)
Record State : Type := { savings : float; deployTime : float }.

Definition initial : State := {| savings := 0; deployTime := 10 |}.

(** The updater given to [setSavings]. *)
Definition next_savings (prev : float) : float :=
  if prev <? 70 then prev + 1 else 70.

(** One firing of the interval callback. *)
Definition tick (st : State) : State :=
  {| savings := next_savings (savings st); deployTime := deployTime st |}.

Fixpoint ticks (n : nat) (st : State) : State :=
  match n with
  | O => st
  | S n' => tick (ticks n' st)
  end.

Definition of_nat (n : nat) : float := of_uint63 (Uint63.of_Z (Z.of_nat n)).

(** The number behind "Money Saved Today": [savings * 142], before
    [toLocaleString] formats it. *)
Definition money_saved (st : State) : float := savings st * 142.

End LandingPage.

(** ** The savings contract in exact arithmetic

    These definitions follow the wording of the specification, not the
    source: amounts are exact rationals, the price table is the decimal
    one, and [round] is rounding to the nearest integer. *)

Module SavingsSpec.
Import JsNumber CostCalculator.
Local Open Scope Q_scope.

Record PriceEntry : Type := { reference : Q; platform : Q }.

Definition price (gpu_type : string) : option PriceEntry :=
  if String.eqb gpu_type "T4" then Some {| reference := 306 # 100; platform := 99 # 100 |}
  else if String.eqb gpu_type "A10G" then Some {| reference := 512 # 100; platform := 199 # 100 |}
  else if String.eqb gpu_type "A100" then Some {| reference := 1224 # 100; platform := 399 # 100 |}
  else None.

Definition provider_cost (hours : Q) (p : PriceEntry) : Q := hours * reference p.
Definition platform_cost (hours : Q) (p : PriceEntry) : Q := hours * platform p.
Definition savings (hours : Q) (p : PriceEntry) : Q :=
  provider_cost hours p - platform_cost hours p.

Definition round (q : Q) : Z := Qfloor (q + (1 # 2)).

Definition savings_percent (hours : Q) (p : PriceEntry) : Z :=
  round (savings hours p / provider_cost hours p * 100).

(** An exact amount written with two decimals, an integer written in
    decimal. *)
Definition amount_text (q : Q) : fixed_result := Digits (fixed_digits (round (q * 100)) 2).
Definition integer_text (n : Z) : fixed_result := Digits (decimal_digits n).

Definition view (hours : Z) (gpu_type : string) : option View :=
  match price gpu_type with
  | None => None
  | Some p =>
      let h := inject_Z hours in
      Some {| awsCostText := amount_text (provider_cost h p);
              ourCostText := amount_text (platform_cost h p);
              savingsText := amount_text (savings h p);
              savingsPercentText := integer_text (savings_percent h p) |}
  end.

End SavingsSpec.

(** ** Decision procedures used by the proofs *)

Module Decide.
Import JsNumber CostCalculator.

Definition fixed_result_eqb (a b : fixed_result) : bool :=
  match a, b with
  | Digits s, Digits t => String.eqb s t
  | _, _ => false
  end.

Definition view_eqb (a b : option View) : bool :=
  match a, b with
  | Some v, Some w =>
      fixed_result_eqb (awsCostText v) (awsCostText w)
      && fixed_result_eqb (ourCostText v) (ourCostText w)
      && fixed_result_eqb (savingsText v) (savingsText w)
      && fixed_result_eqb (savingsPercentText v) (savingsPercentText w)
  | _, _ => false
  end.

(** The key set of [gpuPrices] and the values of the range input. *)
Definition gpu_types : list string := map fst gpuPrices.
Definition slider_range : list Z := map Z.of_nat (seq 10 721).

Definition cheaper (hours : float) (gpuType : string) : bool :=
  match costs hours gpuType with
  | Some c => PrimFloat.ltb (ourCost c) (awsCost c)
  | None => false
  end.



End Decide.

(** ** Binary64 rounding

    The state of the right shift that [SpecFloat.shr] performs before
    rounding: the mantissa [M] shifted by [k] bits, with the round bit and
    the sticky bit. *)

Module Binary64.

Definition shifted (M k : Z) : shr_record :=
  if k =? 0 then {| shr_m := M; shr_r := false; shr_s := false |}
  else {| shr_m := M / 2 ^ k;
          shr_r := Z.testbit M (k - 1);
          shr_s := negb (M mod 2 ^ (k - 1) =? 0) |}.

End Binary64.

Import JsNumber CostCalculator Decide Binary64.

(** * Theorems *)

(** ** Generic facts *)

Lemma fixed_result_eqb_eq (a b : fixed_result) :
  fixed_result_eqb a b = true -> a = b.
Proof.
  destruct a, b; simpl; try discriminate.
  intros H. apply String.eqb_eq in H. now subst.
Qed.

Lemma view_eqb_eq (a b : option View) : view_eqb a b = true -> a = b.
Proof.
  destruct a as [[a1 a2 a3 a4]|], b as [[b1 b2 b3 b4]|]; simpl; try discriminate.
  rewrite !andb_true_iff. intros [[[H1 H2] H3] H4].
  apply fixed_result_eqb_eq in H1, H2, H3, H4. now subst.
Qed.

Lemma slider_range_spec (n : Z) : 10 <= n <= 730 -> In n slider_range.
Proof.
  intros Hn. unfold slider_range.
  replace n with (Z.of_nat (Z.to_nat n)) by lia.
  apply in_map, in_seq. lia.
Qed.

(** A boolean property checked on every slider value and every key of the
    price table holds at each of them. *)
Lemma on_slider_and_table (P : Z -> string -> bool) :
  forallb (fun g => forallb (fun n => P n g) slider_range) gpu_types = true ->
  forall n g, 10 <= n <= 730 -> In g gpu_types -> P n g = true.
Proof.
  intros H n g Hn Hg.
  rewrite forallb_forall in H. specialize (H g Hg).
  rewrite forallb_forall in H. exact (H n (slider_range_spec n Hn)).
Qed.

(** ** The cost calculator *)

Lemma render_refines_spec_check :
  forallb (fun g => forallb (fun n =>
     view_eqb (render (slider_hours n) g) (SavingsSpec.view n g)) slider_range) gpu_types = true.
Proof. vm_compute. reflexivity. Qed.

Lemma lookup_gpu_types (g : string) :
  In g gpu_types -> exists p, lookup gpuPrices g = Some p.
Proof.
  intros [<-|[<-|[<-|[]]]]; eexists; reflexivity.
Qed.

Lemma costs_lookup (hours : float) (g : string) (p : Price) :
  lookup gpuPrices g = Some p ->
  costs hours g =
    Some {| awsCost := hours * aws p;
            ourCost := hours * ours p;
            savings := hours * aws p - hours * ours p;
            savingsPercent :=
              toFixed ((hours * aws p - hours * ours p) / (hours * aws p) * 100) 0 |}.
Proof. unfold costs. intros ->. reflexivity. Qed.

Lemma price_table_check :
  forallb (fun g =>
    match lookup gpuPrices g, SavingsSpec.price g with
    | Some p, Some q =>
        fixed_result_eqb (toFixed (aws p) 2) (SavingsSpec.amount_text (SavingsSpec.reference q))
        && fixed_result_eqb (toFixed (ours p) 2) (SavingsSpec.amount_text (SavingsSpec.platform q))
    | _, _ => false
    end) gpu_types = true.
Proof. vm_compute. reflexivity. Qed.

(** C1.  For every hours value of the range input (an integer from 10 to
    730) and every GPU type of the price table, the calculator computes
    provider cost = hours * reference price, platform cost = hours * platform
    price, savings = their difference and the percentage = savings / provider
    cost * 100 rounded to an integer, in binary64; the prices show as the
    decimal table T4 (3.06, 0.99), A10G (5.12, 1.99), A100 (12.24, 3.99); and
    the four values shown coincide with the ones the same formulas give in
    exact arithmetic. *)
Theorem calculator_computes_contract (n : Z) (g : string) :
  10 <= n <= 730 -> In g ["T4"; "A10G"; "A100"]%string ->
  exists (p : Price) (q : SavingsSpec.PriceEntry) (c : Costs),
    lookup gpuPrices g = Some p /\ SavingsSpec.price g = Some q
    /\ toFixed (aws p) 2 = SavingsSpec.amount_text (SavingsSpec.reference q)
    /\ toFixed (ours p) 2 = SavingsSpec.amount_text (SavingsSpec.platform q)
    /\ costs (slider_hours n) g = Some c
    /\ awsCost c = (slider_hours n * aws p)%float
    /\ ourCost c = (slider_hours n * ours p)%float
    /\ CostCalculator.savings c = (awsCost c - ourCost c)%float
    /\ savingsPercent c =
         toFixed (CostCalculator.savings c / awsCost c * 100)%float 0
    /\ render (slider_hours n) g = SavingsSpec.view n g
    /\ SavingsSpec.view n g =
         Some {| awsCostText :=
                   SavingsSpec.amount_text (SavingsSpec.provider_cost (inject_Z n) q);
                 ourCostText :=
                   SavingsSpec.amount_text (SavingsSpec.platform_cost (inject_Z n) q);
                 savingsText :=
                   SavingsSpec.amount_text (SavingsSpec.savings (inject_Z n) q);
                 savingsPercentText :=
                   SavingsSpec.integer_text (SavingsSpec.savings_percent (inject_Z n) q) |}.
Proof.
  intros Hn Hg.
  assert (Hg' : In g gpu_types) by exact Hg.
  destruct (lookup_gpu_types g Hg') as [p Hp].
  pose proof price_table_check as Ht.
  rewrite forallb_forall in Ht. specialize (Ht g Hg'). rewrite Hp in Ht.
  destruct (SavingsSpec.price g) as [q|] eqn:Hq; [|discriminate].
  apply andb_true_iff in Ht. destruct Ht as [Ha Ho].
  apply fixed_result_eqb_eq in Ha, Ho.
  exists p, q. eexists.
  split; [exact Hp|]. split; [reflexivity|].
  split; [exact Ha|]. split; [exact Ho|].
  split; [exact (costs_lookup _ _ _ Hp)|].
  do 4 (split; [reflexivity|]).
  split.
  - apply view_eqb_eq.
    exact (on_slider_and_table
             (fun n g => view_eqb (render (slider_hours n) g) (SavingsSpec.view n g))
             render_refines_spec_check n g Hn Hg').
  - unfold SavingsSpec.view. rewrite Hq. reflexivity.
Qed.

Lemma calculator_computes_contract_witness :
  exists (p : Price) (q : SavingsSpec.PriceEntry) (c : Costs),
    lookup gpuPrices "T4" = Some p /\ SavingsSpec.price "T4" = Some q
    /\ toFixed (aws p) 2 = SavingsSpec.amount_text (SavingsSpec.reference q)
    /\ toFixed (ours p) 2 = SavingsSpec.amount_text (SavingsSpec.platform q)
    /\ costs (slider_hours 730) "T4" = Some c
    /\ awsCost c = (slider_hours 730 * aws p)%float
    /\ ourCost c = (slider_hours 730 * ours p)%float
    /\ CostCalculator.savings c = (awsCost c - ourCost c)%float
    /\ savingsPercent c =
         toFixed (CostCalculator.savings c / awsCost c * 100)%float 0
    /\ render (slider_hours 730) "T4" = SavingsSpec.view 730 "T4"
    /\ SavingsSpec.view 730 "T4" =
         Some {| awsCostText :=
                   SavingsSpec.amount_text (SavingsSpec.provider_cost (inject_Z 730) q);
                 ourCostText :=
                   SavingsSpec.amount_text (SavingsSpec.platform_cost (inject_Z 730) q);
                 savingsText :=
                   SavingsSpec.amount_text (SavingsSpec.savings (inject_Z 730) q);
                 savingsPercentText :=
                   SavingsSpec.integer_text (SavingsSpec.savings_percent (inject_Z 730) q) |}.
Proof.
  apply (calculator_computes_contract 730 "T4").
  - lia.
  - simpl. auto.
Defined.

(** C2.  With 100 hours on an A10G the calculator yields exactly 512 for the
    provider, 199 for the platform, 313 of savings and 61 percent, shown as
    512.00, 199.00, 313.00 and 61. *)
Theorem example_100_hours_A10G :
  costs 100 "A10G" =
    Some {| awsCost := 512; ourCost := 199; CostCalculator.savings := 313;
            savingsPercent := Digits "61" |}
  /\ render 100 "A10G" =
       Some {| awsCostText := Digits "512.00"; ourCostText := Digits "199.00";
               savingsText := Digits "313.00"; savingsPercentText := Digits "61" |}.
Proof. split; vm_compute; reflexivity. Qed.

(** ** The dashboard *)

Import Dashboard.

Section HandlerFacts.
Variable random : nat -> float.

Lemma map_instances_length (f : Instance -> Rand Instance) (l : list Instance) (k : nat) :
  List.length (fst (map_instances f l k)) = List.length l.
Proof.
  revert k. induction l as [|i l IH]; intros k; simpl; [reflexivity|].
  unfold bind. destruct (f i k) as [i' k1].
  specialize (IH k1). destruct (map_instances f l k1) as [l' k2].
  simpl in *. now rewrite IH.
Qed.

(** A property of records that the callback preserves is preserved by the
    whole traversal. *)
Lemma map_instances_Forall (P : Instance -> Prop) (f : Instance -> Rand Instance) :
  (forall i k, P i -> P (fst (f i k))) ->
  forall l k, Forall P l -> Forall P (fst (map_instances f l k)).
Proof.
  intros Hf. induction l as [|i l IH]; intros k Hl; simpl; [constructor|].
  inversion Hl as [|? ? Hi Hl']; subst.
  unfold bind. pose proof (Hf i k Hi) as Hi'.
  destruct (f i k) as [i' k1].
  specialize (IH k1 Hl'). destruct (map_instances f l k1) as [l' k2].
  simpl in *. now constructor.
Qed.

Lemma map_pause (id0 : string) (l : list Instance) (k : nat) :
  map_instances (update_instance random id0 pause) l k = (map (paused_copy id0) l, k).
Proof.
  induction l as [|i l IH]; simpl; [reflexivity|].
  unfold bind.
  destruct (update_instance random id0 pause i k) as [i' k1] eqn:E.
  unfold update_instance, ret in E. unfold paused_copy at 1.
  destruct (String.eqb (id i) id0); inversion E; subst; rewrite IH; reflexivity.
Qed.

Lemma map_delete (id0 : string) (l : list Instance) (k : nat) :
  map_instances (update_instance random id0 delete) l k = (l, k).
Proof.
  induction l as [|i l IH]; simpl; [reflexivity|].
  unfold bind.
  destruct (update_instance random id0 delete i k) as [i' k1] eqn:E.
  unfold update_instance, ret in E.
  destruct (String.eqb (id i) id0); inversion E; subst; rewrite IH; reflexivity.
Qed.

Lemma handle_pause (id0 : string) (l : list Instance) (k : nat) :
  handleInstanceAction random id0 pause l k = (map (paused_copy id0) l, k).
Proof. unfold handleInstanceAction, bind. rewrite map_pause. reflexivity. Qed.

Lemma handle_delete (id0 : string) (l : list Instance) (k : nat) :
  handleInstanceAction random id0 delete l k = (remove_id id0 l, k).
Proof. unfold handleInstanceAction, bind. rewrite map_delete. reflexivity. Qed.

Lemma remove_id_absent (id0 : string) (l : list Instance) :
  ~ In id0 (map id l) -> remove_id id0 l = l.
Proof.
  induction l as [|i l IH]; simpl; intros H; [reflexivity|].
  destruct (String.eqb_spec (id i) id0) as [E|E]; simpl.
  - exfalso. apply H. now left.
  - f_equal. apply IH. intros Hin. apply H. now right.
Qed.

Lemma update_instance_consistent (id0 : string) (a : Action) (i : Instance) (k : nat) :
  status_consistent i -> status_consistent (fst (update_instance random id0 a i k)).
Proof.
  intros Hi. unfold update_instance.
  destruct (String.eqb (id i) id0); [|exact Hi].
  destruct a; simpl; [| |exact Hi]; split; simpl; auto; discriminate.
Qed.

Lemma handleInstanceAction_consistent (id0 : string) (a : Action)
      (l : list Instance) (k : nat) :
  Forall status_consistent l ->
  Forall status_consistent (fst (handleInstanceAction random id0 a l k)).
Proof.
  intros Hl. unfold handleInstanceAction, bind.
  pose proof (map_instances_Forall status_consistent (update_instance random id0 a)
                (update_instance_consistent id0 a) l k Hl) as H.
  destruct (map_instances (update_instance random id0 a) l k) as [l' k'].
  simpl in H. destruct a; simpl; auto.
  unfold remove_id. rewrite Forall_forall in *.
  intros x Hx. apply filter_In in Hx. now apply H.
Qed.
End HandlerFacts.

Lemma initial_instances_consistent : Forall status_consistent initial_instances.
Proof.
  unfold initial_instances.
  repeat (first [apply Forall_cons | apply Forall_nil]);
    (split; simpl; [intros H; first [discriminate H | reflexivity] | tauto]).
Qed.

(** C3.  For every instance list, every identifier present in it and
    whatever the status of the record before, the pause action leaves the
    list with the same records in the same places, except that each record
    with that identifier now has status [paused] and utilisation 0. *)
Theorem pause_sets_paused_and_zero
        (random : nat -> float) (id0 : string) (l : list Instance) (k : nat) :
  In id0 (map id l) ->
  let l' := fst (handleInstanceAction random id0 pause l k) in
  List.length l' = List.length l
  /\ (forall j i, nth_error l j = Some i ->
        nth_error l' j =
          Some (if String.eqb (id i) id0 then with_status_utilization i paused 0 else i))
  /\ (forall i', In i' l' -> id i' = id0 ->
        status i' = paused /\ gpu_utilization i' = 0%float)
  /\ (exists i', In i' l' /\ id i' = id0).
Proof.
  intros Hin l'. subst l'. rewrite handle_pause. simpl.
  split; [apply length_map|]. split; [|split].
  - intros j i Hj. rewrite nth_error_map, Hj. reflexivity.
  - intros i' Hi' Hid. apply in_map_iff in Hi'. destruct Hi' as [i [<- _]].
    unfold paused_copy in *. destruct (String.eqb_spec (id i) id0) as [E|E].
    + split; reflexivity.
    + contradiction.
  - apply in_map_iff in Hin. destruct Hin as [i [Hid Hi]].
    exists (paused_copy id0 i). split; [now apply in_map|].
    unfold paused_copy. rewrite <- Hid, String.eqb_refl. reflexivity.
Qed.

Lemma pause_sets_paused_and_zero_witness :
  let l' := fst (handleInstanceAction (fun _ => 0.5%float) "gpu-1" pause initial_instances 0%nat) in
  List.length l' = List.length initial_instances
  /\ (forall j i, nth_error initial_instances j = Some i ->
        nth_error l' j =
          Some (if String.eqb (id i) "gpu-1" then with_status_utilization i paused 0 else i))
  /\ (forall i', In i' l' -> id i' = "gpu-1"%string ->
        status i' = paused /\ gpu_utilization i' = 0%float)
  /\ (exists i', In i' l' /\ id i' = "gpu-1"%string).
Proof.
  apply (pause_sets_paused_and_zero (fun _ => 0.5%float) "gpu-1" initial_instances 0%nat).
  simpl. auto.
Defined.

(** C5.  For every instance list with unique identifiers and every
    identifier present in it, the delete action removes exactly the record
    with that identifier: the list splits around that record, and what is
    left is the part before it followed by the part after it, unchanged. *)
Theorem delete_removes_exactly_that_record
        (random : nat -> float) (id0 : string) (l : list Instance) (k : nat) :
  NoDup (map id l) -> In id0 (map id l) ->
  exists l1 x l2,
    l = l1 ++ x :: l2 /\ id x = id0
    /\ ~ In id0 (map id l1) /\ ~ In id0 (map id l2)
    /\ fst (handleInstanceAction random id0 delete l k) = l1 ++ l2.
Proof.
  intros Hnd Hin. rewrite handle_delete. simpl.
  apply in_map_iff in Hin. destruct Hin as [x [Hid Hx]].
  apply in_split in Hx. destruct Hx as [l1 [l2 ->]].
  rewrite map_app in Hnd. simpl in Hnd.
  pose proof (NoDup_remove_2 _ _ _ Hnd) as Hnot.
  rewrite Hid in Hnot.
  assert (H1 : ~ In id0 (map id l1)) by (intros H; apply Hnot, in_or_app; now left).
  assert (H2 : ~ In id0 (map id l2)) by (intros H; apply Hnot, in_or_app; now right).
  exists l1, x, l2. repeat split; auto.
  unfold remove_id. rewrite filter_app. simpl.
  rewrite Hid, String.eqb_refl. simpl.
  fold (remove_id id0 l1). fold (remove_id id0 l2).
  now rewrite (remove_id_absent id0 l1 H1), (remove_id_absent id0 l2 H2).
Qed.

Lemma delete_removes_exactly_that_record_witness :
  exists l1 x l2,
    initial_instances = l1 ++ x :: l2 /\ id x = "gpu-2"%string
    /\ ~ In "gpu-2"%string (map id l1) /\ ~ In "gpu-2"%string (map id l2)
    /\ fst (handleInstanceAction (fun _ => 0.5%float) "gpu-2" delete initial_instances 0%nat)
       = l1 ++ l2.
Proof.
  apply (delete_removes_exactly_that_record (fun _ => 0.5%float) "gpu-2" initial_instances 0%nat).
  - simpl. repeat constructor; simpl; intuition discriminate.
  - simpl. auto.
Defined.

(** C6.  Starting from the dashboard's initial list of three instances,
    after any finite sequence of calls of [handleInstanceAction] (any
    identifiers, any actions, any values drawn by [Math.random]), every
    instance whose status is [paused] has utilisation 0 and every status is
    one of [running], [paused], [stopped]. *)
Theorem status_invariant_after_any_calls
        (random : nat -> float) (calls : list (string * Action)) (k : nat) :
  Forall (fun i =>
            (status i = paused -> gpu_utilization i = 0%float)
            /\ (status i = running \/ status i = paused \/ status i = stopped))
         (fst (handle_all random calls initial_instances k)).
Proof.
  change (Forall status_consistent (fst (handle_all random calls initial_instances k))).
  generalize initial_instances_consistent.
  generalize initial_instances as l. revert k.
  induction calls as [|[id0 a] calls IH]; intros k l Hl; simpl; [exact Hl|].
  unfold bind.
  pose proof (handleInstanceAction_consistent random id0 a l k Hl) as H.
  destruct (handleInstanceAction random id0 a l k) as [l' k'].
  apply IH. exact H.
Qed.

(** ** The landing page counter *)

Import LandingPage.

Lemma next_savings_below_70 :
  Forall (fun k => next_savings (of_nat k) = of_nat (S k)) (seq 0 70).
Proof. repeat (apply Forall_cons; [reflexivity|]). apply Forall_nil. Qed.

Lemma counter_after (n : nat) :
  LandingPage.savings (ticks n initial) = of_nat (Nat.min n 70).
Proof.
  induction n as [|n IH]; [reflexivity|].
  simpl ticks. unfold tick. simpl LandingPage.savings. rewrite IH.
  destruct (Nat.lt_ge_cases n 70) as [Hlt|Hge].
  - rewrite (Nat.min_l n 70), (Nat.min_l (S n) 70) by lia.
    pose proof next_savings_below_70 as H. rewrite Forall_forall in H.
    apply H, in_seq. lia.
  - rewrite (Nat.min_r n 70), (Nat.min_r (S n) 70) by lia. reflexivity.
Qed.

Lemma of_nat_le_check :
  Forall (fun k => (of_nat k <=? of_nat (Nat.min (S k) 70))%float = true
                   /\ (of_nat k <=? 70)%float = true) (seq 0 71).
Proof. repeat (apply Forall_cons; [split; reflexivity|]). apply Forall_nil. Qed.

(** C9.  A tick of the landing page's timer replaces the savings counter by
    a function of its previous value alone, the previous value plus 1 while
    it is below 70 and 70 otherwise, and touches nothing else; so from the
    initial value 0 the counter after [n] ticks is the smaller of [n] and 70:
    it never decreases and never exceeds 70. *)
Theorem savings_counter_ticks :
  (forall st,
      LandingPage.savings (tick st) =
        (if LandingPage.savings st <? 70 then LandingPage.savings st + 1 else 70)%float
      /\ deployTime (tick st) = deployTime st)
  /\ LandingPage.savings initial = 0%float
  /\ forall n,
      LandingPage.savings (ticks n initial) = of_nat (Nat.min n 70)
      /\ (LandingPage.savings (ticks n initial)
            <=? LandingPage.savings (ticks (S n) initial))%float = true
      /\ (LandingPage.savings (ticks n initial) <=? 70)%float = true.
Proof.
  split; [intros st; split; reflexivity|]. split; [reflexivity|].
  intros n. rewrite !counter_after. split; [reflexivity|].
  pose proof of_nat_le_check as H. rewrite Forall_forall in H.
  destruct (Nat.lt_ge_cases n 70) as [Hlt|Hge].
  - rewrite (Nat.min_l n 70) by lia. apply H, in_seq. lia.
  - rewrite (Nat.min_r n 70), (Nat.min_r (S n) 70) by lia.
    split; reflexivity.
Qed.

(** ** Rounding to nearest in binary64

    [Prim2SF] and the specifications of the primitive operations relate the
    numbers of the program to [SpecFloat]; the lemmas below characterise the
    rounding that a multiplication performs. *)

Lemma digits2_pos_size (p : positive) : digits2_pos p = Pos.size p.
Proof. induction p; simpl; congruence. Qed.

Lemma Zdigits2_bounds (M : Z) :
  0 < M -> 0 < Zdigits2 M /\ 2 ^ (Zdigits2 M - 1) <= M < 2 ^ Zdigits2 M.
Proof.
  destruct M as [|p|p]; try lia. intros _. simpl Zdigits2.
  rewrite digits2_pos_size. split; [lia|].
  pose proof (Pos.size_gt p) as Hgt. pose proof (Pos.size_le p) as Hle.
  apply Pos2Z.pos_lt_pos in Hgt. apply Pos2Z.pos_le_pos in Hle.
  rewrite Pos2Z.inj_pow in Hgt, Hle.
  replace (Z.pos (Pos.size p)) with (Z.succ (Z.pos (Pos.size p) - 1)) in Hle by lia.
  rewrite Z.pow_succ_r in Hle by lia. lia.
Qed.

Lemma shr_1_nonneg (m : Z) (r s : bool) :
  0 <= m ->
  shr_1 {| shr_m := m; shr_r := r; shr_s := s |} =
  {| shr_m := m / 2; shr_r := Z.odd m; shr_s := r || s |}.
Proof.
  intros Hm. rewrite <- Z.div2_div.
  destruct m as [|[p|p|]|]; try lia; reflexivity.
Qed.

Lemma mod_pow2_split (M k : Z) :
  0 <= k ->
  M mod 2 ^ (k + 1) = M mod 2 ^ k + 2 ^ k * Z.b2z (Z.testbit M k).
Proof.
  intros Hk. rewrite Z.pow_add_r, Z.pow_1_r by lia.
  rewrite Z.rem_mul_r by lia. now rewrite Z.testbit_spec' by lia.
Qed.

Lemma shr_1_shifted (M k : Z) :
  0 <= M -> 0 <= k -> shr_1 (shifted M k) = shifted M (k + 1).
Proof.
  intros HM Hk. unfold shifted.
  destruct (Z.eqb_spec k 0) as [->|Hk0].
  - rewrite shr_1_nonneg by lia. simpl. f_equal.
    rewrite Z.mod_1_r. reflexivity.
  - destruct (Z.eqb_spec (k + 1) 0) as [|_]; [lia|].
    rewrite shr_1_nonneg by (apply Z.div_pos; lia).
    replace (k + 1 - 1) with k by lia.
    f_equal.
    + rewrite Z.div_div by lia. now rewrite Z.pow_add_r by lia.
    + rewrite Z.testbit_odd, Z.shiftr_div_pow2 by lia. reflexivity.
    + pose proof (mod_pow2_split M (k - 1) ltac:(lia)) as H.
      replace (k - 1 + 1) with k in H by lia. rewrite H.
      pose proof (Z.mod_pos_bound M (2 ^ (k - 1)) ltac:(lia)) as Hb.
      assert (0 < 2 ^ (k - 1)) by lia.
      destruct (Z.testbit M (k - 1)); simpl Z.b2z; simpl orb.
      * symmetry. apply negb_true_iff, Z.eqb_neq. lia.
      * f_equal. f_equal. lia.
Qed.

Lemma iter_pos_shifted (p : positive) :
  forall M k, 0 <= M -> 0 <= k ->
  iter_pos shr_1 p (shifted M k) = shifted M (k + Z.pos p).
Proof.
  induction p as [p IH|p IH|]; intros M k HM Hk; simpl.
  - rewrite shr_1_shifted, !IH by lia. f_equal. lia.
  - rewrite !IH by lia. f_equal. lia.
  - now apply shr_1_shifted.
Qed.

Lemma shr_exact (M E n : Z) :
  0 <= M -> 0 < n ->
  shr (shr_record_of_loc M loc_Exact) E n = (shifted M n, E + n).
Proof.
  intros HM Hn. destruct n as [|p|p]; try lia. unfold shr.
  change (shr_record_of_loc M loc_Exact) with (shifted M 0).
  now rewrite iter_pos_shifted by lia.
Qed.

(** Rounding to nearest of a shifted record stays within half a unit. *)
Lemma round_nearest_even_shifted (M n : Z) :
  0 <= M -> 0 < n ->
  let R := round_nearest_even (shr_m (shifted M n)) (loc_of_shr_record (shifted M n)) in
  M / 2 ^ n <= R <= M / 2 ^ n + 1
  /\ 2 * M - 2 ^ n <= 2 ^ (n + 1) * R <= 2 * M + 2 ^ n.
Proof.
  intros HM Hn. unfold shifted.
  destruct (Z.eqb_spec n 0) as [|_]; [lia|]. simpl shr_m.
  pose proof (mod_pow2_split M (n - 1) ltac:(lia)) as Hs.
  replace (n - 1 + 1) with n in Hs by lia.
  pose proof (Z.mod_pos_bound M (2 ^ (n - 1)) ltac:(lia)) as Hb.
  pose proof (Z.div_mod M (2 ^ n) ltac:(lia)) as Hd.
  assert (Hp : 2 ^ n = 2 * 2 ^ (n - 1)).
  { replace n with (Z.succ (n - 1)) at 1 by lia. now rewrite Z.pow_succ_r by lia. }
  assert (Hp' : 2 ^ (n + 1) = 2 * 2 ^ n) by (rewrite Z.pow_add_r by lia; lia).
  set (q := M / 2 ^ n) in *. set (lo := M mod 2 ^ (n - 1)) in *.
  set (P := 2 ^ (n - 1)) in *.
  unfold loc_of_shr_record.
  destruct (Z.testbit M (n - 1)); simpl Z.b2z in Hs;
    destruct (Z.eqb_spec lo 0) as [Hz|Hz]; simpl negb; cbv beta iota;
    unfold round_nearest_even; try destruct (Z.even q); nia.
Qed.

Lemma shr_nonpos (mrs : shr_record) (e n : Z) : n <= 0 -> shr mrs e n = (mrs, e).
Proof. destruct n; try lia; reflexivity. Qed.

Lemma Zdigits2_le (R k : Z) : 0 < R < 2 ^ k -> 0 <= k -> Zdigits2 R <= k.
Proof.
  intros HR Hk. destruct (Zdigits2_bounds R ltac:(lia)) as [Hd [Hlo _]].
  destruct (Z.le_gt_cases (Zdigits2 R) k) as [|Hgt]; [assumption|].
  assert (2 ^ k <= 2 ^ (Zdigits2 R - 1)) by (apply Z.pow_le_mono_r; lia).
  lia.
Qed.

(** The result of rounding the positive value [M * 2^E] when at least one
    bit is shifted out. *)
Lemma binary_round_aux_pos (sx : bool) (M E : Z) :
  0 < M ->
  let e1 := fexp prec emax (Zdigits2 M + E) in
  let n := e1 - E in
  0 < n ->
  exists R,
    0 <= R <= 2 ^ 53
    /\ 2 * M - 2 ^ n <= 2 ^ (n + 1) * R <= 2 * M + 2 ^ n
    /\ binary_round_aux prec emax sx M E loc_Exact =
       if R =? 0 then S754_zero sx
       else if R =? 2 ^ 53 then
         if e1 + 1 <=? emax - prec then S754_finite sx (2 ^ 52)%positive (e1 + 1)
         else S754_infinity sx
       else
         if e1 <=? emax - prec then S754_finite sx (Z.to_pos R) e1
         else S754_infinity sx.
Proof.
  intros HM e1 n Hn.
  destruct (Zdigits2_bounds M HM) as [Hd [_ Hhi]].
  destruct (round_nearest_even_shifted M n ltac:(lia) Hn) as [Hq Hnear].
  set (R := round_nearest_even (shr_m (shifted M n)) (loc_of_shr_record (shifted M n))) in *.
  assert (He1 : -1074 <= e1 /\ Zdigits2 M + E - 53 <= e1)
    by (unfold e1, fexp, SpecFloat.emin, prec, emax; lia).
  assert (Hq53 : M / 2 ^ n < 2 ^ 53).
  { apply Z.div_lt_upper_bound; [lia|].
    rewrite <- Z.pow_add_r by lia.
    apply Z.lt_le_trans with (1 := Hhi). apply Z.pow_le_mono_r; lia. }
  assert (Hq0 : 0 <= M / 2 ^ n) by (apply Z.div_pos; lia).
  exists R. split; [lia|]. split; [exact Hnear|].
  unfold binary_round_aux, shr_fexp. fold e1.
  replace (e1 - E) with n by reflexivity.
  rewrite shr_exact by lia. fold R. replace (E + n) with e1 by (unfold n; lia).
  destruct (Z.eqb_spec R 0) as [HR0|HR0].
  - rewrite HR0. rewrite shr_nonpos; [reflexivity|].
    simpl Zdigits2. unfold fexp, SpecFloat.emin, prec, emax. lia.
  - destruct (Z.eqb_spec R (2 ^ 53)) as [HR53|HR53].
    + rewrite HR53.
      replace (fexp prec emax (Zdigits2 (2 ^ 53) + e1) - e1) with 1
        by (change (Zdigits2 (2 ^ 53)) with 54;
            unfold fexp, SpecFloat.emin, prec, emax; lia).
      rewrite shr_exact by lia. reflexivity.
    + rewrite shr_nonpos.
      * simpl shr_m. destruct R as [|p|p]; try lia. reflexivity.
      * pose proof (Zdigits2_le R 53 ltac:(lia) ltac:(lia)).
        unfold fexp, SpecFloat.emin, prec, emax. lia.
Qed.

Lemma Zdigits2_ge (R k : Z) : 0 <= k -> 2 ^ k <= R -> k + 1 <= Zdigits2 R.
Proof.
  intros Hk HR. assert (0 < 2 ^ k) by lia.
  destruct (Zdigits2_bounds R ltac:(lia)) as [Hd [_ Hhi]].
  destruct (Z.le_gt_cases (k + 1) (Zdigits2 R)) as [|Hlt]; [assumption|].
  assert (2 ^ Zdigits2 R <= 2 ^ k) by (apply Z.pow_le_mono_r; lia).
  lia.
Qed.

Lemma SFltb_finite_pos (m1 : positive) (e1 : Z) (m2 : positive) (e2 : Z) :
  SFltb (S754_finite false m1 e1) (S754_finite false m2 e2) = true <->
  e1 < e2 \/ (e1 = e2 /\ Z.pos m1 < Z.pos m2).
Proof.
  unfold SFltb, SFcompare.
  change (PosDef.Pos.compare_cont Eq m1 m2) with (Pos.compare m1 m2).
  destruct (Z.compare_spec e1 e2); [destruct (Pos.compare_spec m1 m2)| |];
    split; intros; try discriminate; try reflexivity; subst; lia.
Qed.

(** A finite binary64 number is in canonical form. *)
Lemma bounded_canonical (m : positive) (e : Z) :
  bounded prec emax m e = true ->
  let d := Zdigits2 (Z.pos m) in
  -1074 <= e <= 971 /\ 0 < d <= 53 /\ (e = -1074 \/ d = 53).
Proof.
  unfold bounded, canonical_mantissa, fexp, SpecFloat.emin, prec, emax.
  intros H. apply andb_true_iff in H. destruct H as [Hc He].
  apply Z.eqb_eq in Hc. apply Z.leb_le in He.
  change (Z.pos (digits2_pos m)) with (Zdigits2 (Z.pos m)) in Hc.
  destruct (Zdigits2_bounds (Z.pos m) ltac:(lia)) as [Hd _].
  cbv zeta. lia.
Qed.

Local Open Scope float_scope.

Lemma Prim2SF_0 : Prim2SF 0 = S754_zero false.
Proof. reflexivity. Qed.
Lemma Prim2SF_1 : Prim2SF 1 = S754_finite false 4503599627370496 (-52).
Proof. reflexivity. Qed.
Lemma Prim2SF_100 : Prim2SF 100 = S754_finite false 7036874417766400 (-46).
Proof. reflexivity. Qed.

(** A number in [0, 1) times 100 is in [0, 100): the product is rounded to
    nearest, and 100 is too far above the largest exact product. *)
Lemma times_100_in_range (r : float) :
  (0 <=? r) = true -> (r <? 1) = true ->
  (0 <=? r * 100) = true /\ (r * 100 <? 100) = true.
Proof.
  rewrite !leb_spec, !ltb_spec, mul_spec, Prim2SF_0, Prim2SF_1, Prim2SF_100.
  pose proof (Prim2SF_valid r) as Hv.
  destruct (Prim2SF r) as [s|s| |s m e]; intros H0 H1.
  - split; reflexivity.
  - destruct s; discriminate.
  - discriminate.
  - destruct s; [discriminate|]. clear H0.
    simpl in Hv. apply bounded_canonical in Hv. cbv zeta in Hv.
    apply SFltb_finite_pos in H1.
    destruct (Zdigits2_bounds (Z.pos m) ltac:(lia)) as [_ Hm].
    set (d := Zdigits2 (Z.pos m)) in *.
    assert (Hm53 : Z.pos m < 2 ^ 53).
    { apply Z.lt_le_trans with (2 ^ d)%Z; [lia|]. apply Z.pow_le_mono_r; lia. }
    assert (He : (e <= -53)%Z).
    { destruct H1 as [H1|[H1 H1']]; [lia|]. exfalso.
      destruct Hv as [_ [_ [Hv|Hv]]]; [lia|]. rewrite Hv in Hm. lia. }
    unfold SF64mul, SFmul. simpl xorb.
    set (c := 7036874417766400%positive).
    rewrite Pos2Z.inj_mul.
    set (M := (Z.pos m * Z.pos c)%Z).
    assert (HM : (0 < M)%Z) by (unfold M; lia).
    assert (HdM : (d + 52 <= Zdigits2 M <= d + 53)%Z).
    { split.
      - replace (d + 52)%Z with (d - 1 + 52 + 1)%Z by lia. apply Zdigits2_ge; [lia|].
        rewrite Z.pow_add_r by lia. unfold M, c. nia.
      - apply Zdigits2_le; [|lia]. split; [lia|].
        rewrite Z.pow_add_r by lia. unfold M, c. nia. }
    destruct (binary_round_aux_pos false M (e + -46) HM) as [R [HR [Hnear ->]]].
    { unfold fexp, SpecFloat.emin, prec, emax. lia. }
    set (e1 := fexp prec emax (Zdigits2 M + (e + -46))) in *.
    assert (He1 : (e1 <= -46 /\ -1074 <= e1)%Z)
      by (unfold e1, fexp, SpecFloat.emin, prec, emax; lia).
    assert (HRc : (e1 = -46 -> R < Z.pos c)%Z).
    { intros E1. replace (e1 - (e + -46))%Z with (- e)%Z in Hnear by lia.
      assert (HP : (2 ^ 53 <= 2 ^ (- e))%Z) by (apply Z.pow_le_mono_r; lia).
      rewrite Z.pow_add_r in Hnear by lia. unfold M, c in *. nia. }
    destruct (Z.eqb_spec R 0) as [HR0|HR0]; [split; reflexivity|].
    destruct (Z.eqb_spec R (2 ^ 53)) as [HR53|HR53].
    + assert (e1 <> -46)%Z by (intros E1; specialize (HRc E1); unfold c in HRc; lia).
      destruct (Z.leb_spec (e1 + 1) (emax - prec)) as [_|Hbad];
        [|unfold emax, prec in Hbad; lia].
      split; [reflexivity|]. apply SFltb_finite_pos. lia.
    + destruct (Z.leb_spec e1 (emax - prec)) as [_|Hbad];
        [|unfold emax, prec in Hbad; lia].
      split; [reflexivity|]. apply SFltb_finite_pos.
      rewrite Z2Pos.id by lia.
      destruct (Z.eq_dec e1 (-46)) as [E1|E1]; [right; split; auto|left; lia].
Qed.


Local Open Scope Z_scope.

Lemma SFltb_zero_finite (s : bool) (m : positive) (e : Z) :
  SFltb (S754_zero s) (S754_finite false m e) = true.
Proof. reflexivity. Qed.

(** Bounds on the number of digits of a product with a 53-bit constant. *)
Lemma Zdigits2_mul_53 (m c : Z) :
  0 < m -> 2 ^ 52 <= c < 2 ^ 53 ->
  Zdigits2 m + 52 <= Zdigits2 (m * c) <= Zdigits2 m + 53.
Proof.
  intros Hm Hc. destruct (Zdigits2_bounds m Hm) as [Hd [Hlo Hhi]].
  set (d := Zdigits2 m) in *. split.
  - replace (d + 52) with (d - 1 + 52 + 1) by lia. apply Zdigits2_ge; [lia|].
    rewrite Z.pow_add_r by lia. nia.
  - apply Zdigits2_le; [|lia]. split; [nia|].
    rewrite Z.pow_add_r by lia. nia.
Qed.

Section ScaledConstants.
(** Two positive constants [o = mo * 2^eo] and [a = ma * 2^(eo + 2)] with
    53-bit mantissas, so that [a > 2 * o], and a positive finite [h]. *)
Variables (mo ma m : positive) (eo e : Z).
Hypothesis Hmo : 2 ^ 52 <= Z.pos mo < 2 ^ 53.
Hypothesis Hma : 2 ^ 52 <= Z.pos ma < 2 ^ 53.
Hypothesis Heo : -53 <= eo <= -51.
Hypothesis Hh : bounded prec emax m e = true.

Lemma scaled_products_lt :
  SFltb (SF64mul (S754_finite false m e) (S754_finite false mo eo))
        (S754_infinity false) = true ->
  SFltb (SF64mul (S754_finite false m e) (S754_finite false mo eo))
        (SF64mul (S754_finite false m e) (S754_finite false ma (eo + 2))) = true.
Proof.
  pose proof (bounded_canonical m e Hh) as Hc. cbv zeta in Hc.
  destruct (Zdigits2_bounds (Z.pos m) ltac:(lia)) as [_ Hm].
  pose proof (Zdigits2_mul_53 (Z.pos m) (Z.pos mo) ltac:(lia) Hmo) as Hdo.
  pose proof (Zdigits2_mul_53 (Z.pos m) (Z.pos ma) ltac:(lia) Hma) as Hda.
  set (d := Zdigits2 (Z.pos m)) in *.
  unfold SF64mul, SFmul. simpl xorb. rewrite !Pos2Z.inj_mul.
  set (Mo := Z.pos m * Z.pos mo) in *. set (Ma := Z.pos m * Z.pos ma) in *.
  assert (HMo : 0 < Mo) by (unfold Mo; lia).
  assert (HMa : 0 < Ma) by (unfold Ma; lia).
  destruct (binary_round_aux_pos false Mo (e + eo) HMo) as [Ro [HRo [Hno ->]]].
  { unfold fexp, SpecFloat.emin, prec, emax. lia. }
  destruct (binary_round_aux_pos false Ma (e + (eo + 2)) HMa) as [Ra [HRa [Hna ->]]].
  { unfold fexp, SpecFloat.emin, prec, emax. lia. }
  set (e1o := fexp prec emax (Zdigits2 Mo + (e + eo))) in *.
  set (e1a := fexp prec emax (Zdigits2 Ma + (e + (eo + 2)))) in *.
  assert (He1o : e1o = Z.max (Zdigits2 Mo + (e + eo) - 53) (-1074)) by reflexivity.
  assert (He1a : e1a = Z.max (Zdigits2 Ma + (e + (eo + 2)) - 53) (-1074)) by reflexivity.
  set (no := e1o - (e + eo)) in *. set (na := e1a - (e + (eo + 2))) in *.
  assert (Hno0 : 0 < no) by (unfold no; lia).
  assert (Hna0 : 0 < na) by (unfold na; lia).
  assert (Hmo' : Mo < Z.pos m * 2 ^ 53) by (unfold Mo; nia).
  assert (Hma' : Z.pos m * 2 ^ 52 <= Ma) by (unfold Ma; nia).
  (* the facts the comparison needs *)
  assert (F1 : Ra <> 0).
  { intros ->. destruct (Zdigits2_bounds Ma HMa) as [_ [Hlo _]].
    destruct (Z.eq_dec e1a (-1074)) as [E|E].
    - assert (2 ^ na <= 2 ^ 51) by (apply Z.pow_le_mono_r; unfold na; lia). nia.
    - assert (Hn : Zdigits2 Ma - 1 = na + 52) by (unfold na; lia).
      rewrite Hn, Z.pow_add_r in Hlo by lia. nia. }
  assert (F2 : e1o <= e1a) by lia.
  assert (F3 : e1o = e1a -> Ro < Ra).
  { intros E. assert (Ha : no = na + 2) by (unfold na, no; lia).
    assert (HP : 2 ^ no <= 2 ^ 53) by (apply Z.pow_le_mono_r; unfold no; lia).
    assert (Hpa : 2 ^ (na + 1) = 2 * 2 ^ na) by (rewrite Z.pow_add_r by lia; lia).
    assert (Hpo : 2 ^ no = 4 * 2 ^ na) by (rewrite Ha, Z.pow_add_r by lia; lia).
    assert (Hpo' : 2 ^ (no + 1) = 8 * 2 ^ na)
      by (rewrite Z.pow_add_r, Hpo by lia; lia).
    rewrite Hpo, Hpo' in Hno. rewrite Hpa in Hna. rewrite Hpo in HP.
    set (P := 2 ^ na) in *. assert (0 < P) by (unfold P; lia).
    destruct (Z.lt_ge_cases Ro Ra) as [|Hge]; [assumption|exfalso].
    assert (P * Ra <= P * Ro) by (apply Z.mul_le_mono_nonneg_l; lia).
    lia. }
  assert (F4 : e1o + 1 = e1a -> Ro = 2 ^ 53 -> 2 ^ 52 < Ra).
  { intros E ->. assert (Ha : no = na + 1) by (unfold na, no; lia).
    assert (Hpa : 2 ^ (na + 1) = 2 * 2 ^ na) by (rewrite Z.pow_add_r by lia; lia).
    assert (Hpo : 2 ^ no = 2 * 2 ^ na) by (rewrite Ha; exact Hpa).
    assert (Hpo' : 2 ^ (no + 1) = 4 * 2 ^ na)
      by (rewrite Z.pow_add_r, Hpo by lia; lia).
    rewrite Hpo, Hpo' in Hno. rewrite Hpa in Hna.
    set (Q := 2 ^ na) in *. assert (0 < Q) by (unfold Q; lia).
    destruct (Z.lt_ge_cases (2 ^ 52) Ra) as [|Hge]; [assumption|exfalso].
    assert (Q * Ra <= Q * 2 ^ 52) by (apply Z.mul_le_mono_nonneg_l; lia).
    lia. }
  clearbody e1o e1a. clear Hno Hna.
  intros Hfin.
  destruct (Z.eqb_spec Ra 0) as [|_]; [contradiction|].
  destruct (Z.eqb_spec Ro 0) as [HRo0|HRo0].
  { destruct (Ra =? 2 ^ 53); [destruct (e1a + 1 <=? emax - prec)|
                              destruct (e1a <=? emax - prec)]; reflexivity. }
  destruct (Z.eqb_spec Ro (2 ^ 53)) as [HRo53|HRo53];
    [destruct (e1o + 1 <=? emax - prec); [|discriminate Hfin]
    |destruct (e1o <=? emax - prec); [|discriminate Hfin]];
    (destruct (Z.eqb_spec Ra (2 ^ 53)) as [HRa53|HRa53];
     [destruct (e1a + 1 <=? emax - prec); [|reflexivity]
     |destruct (e1a <=? emax - prec); [|reflexivity]]);
    apply SFltb_finite_pos; rewrite ?Z2Pos.id by lia;
    change (Z.pos (2 ^ 52)) with (2 ^ 52); lia.
Qed.
End ScaledConstants.

Lemma SFleb_finite_pos (m1 : positive) (e1 : Z) (m2 : positive) (e2 : Z) :
  SFleb (S754_finite false m1 e1) (S754_finite false m2 e2) = true -> e1 <= e2.
Proof.
  unfold SFleb, SFcompare.
  destruct (Z.compare_spec e1 e2) as [E|E|E]; intros Hle;
    first [lia | discriminate Hle].
Qed.

Section BoundedProduct.
(** A positive constant [o = mo * 2^eo] below 4 and a positive finite [h]
    whose exponent is at most that of 1e300. *)
Variables (mo m : positive) (eo e : Z).
Hypothesis Hmo : 2 ^ 52 <= Z.pos mo < 2 ^ 53.
Hypothesis Heo : -53 <= eo <= -51.
Hypothesis Hh : bounded prec emax m e = true.
Hypothesis He : e <= 944.

Lemma bounded_product_finite :
  SFltb (SF64mul (S754_finite false m e) (S754_finite false mo eo))
        (S754_infinity false) = true.
Proof.
  pose proof (bounded_canonical m e Hh) as Hc. cbv zeta in Hc.
  pose proof (Zdigits2_mul_53 (Z.pos m) (Z.pos mo) ltac:(lia) Hmo) as Hdo.
  set (d := Zdigits2 (Z.pos m)) in *.
  unfold SF64mul, SFmul. simpl xorb. rewrite Pos2Z.inj_mul.
  set (Mo := Z.pos m * Z.pos mo) in *.
  assert (HMo : 0 < Mo) by (unfold Mo; lia).
  destruct (binary_round_aux_pos false Mo (e + eo) HMo) as [Ro [HRo [_ ->]]].
  { unfold fexp, SpecFloat.emin, prec, emax. lia. }
  assert (He1 : fexp prec emax (Zdigits2 Mo + (e + eo)) + 1 <= emax - prec)
    by (unfold fexp, SpecFloat.emin, prec, emax; lia).
  destruct (Ro =? 0); [reflexivity|].
  destruct (Ro =? 2 ^ 53).
  - destruct (Z.leb_spec (fexp prec emax (Zdigits2 Mo + (e + eo)) + 1) (emax - prec));
      [reflexivity|lia].
  - destruct (Z.leb_spec (fexp prec emax (Zdigits2 Mo + (e + eo))) (emax - prec));
      [reflexivity|lia].
Qed.
End BoundedProduct.

(** ** Comparing the two costs in binary64 *)

Lemma product_lt_of_scaled (h o a : float) (mo ma : positive) (eo : Z) :
  Prim2SF o = S754_finite false mo eo ->
  Prim2SF a = S754_finite false ma (eo + 2) ->
  2 ^ 52 <= Z.pos mo < 2 ^ 53 -> 2 ^ 52 <= Z.pos ma < 2 ^ 53 -> -53 <= eo <= -51 ->
  (0 <? h)%float = true ->
  (h * o <? infinity)%float = true ->
  (h * o <? h * a)%float = true.
Proof.
  intros Ho Ha Hmo Hma Heo.
  rewrite !ltb_spec, !mul_spec, Ho, Ha, Prim2SF_0.
  change (Prim2SF infinity) with (S754_infinity false).
  pose proof (Prim2SF_valid h) as Hv.
  destruct (Prim2SF h) as [s|s| |s m e]; try discriminate.
  - destruct s; discriminate.
  - destruct s; [discriminate|]. intros _.
    apply scaled_products_lt; assumption.
Qed.

(** The entries of the price table: in each, the reference price has an
    exponent two above the platform price's. *)
Lemma price_entries_scaled (g : string) (p : Price) :
  lookup gpuPrices g = Some p ->
  exists mo ma eo,
    Prim2SF (ours p) = S754_finite false mo eo
    /\ Prim2SF (aws p) = S754_finite false ma (eo + 2)
    /\ 2 ^ 52 <= Z.pos mo < 2 ^ 53 /\ 2 ^ 52 <= Z.pos ma < 2 ^ 53
    /\ -53 <= eo <= -51.
Proof.
  unfold gpuPrices. cbn [lookup].
  destruct (String.eqb "T4" g);
    [|destruct (String.eqb "A10G" g); [|destruct (String.eqb "A100" g)]];
    intros H; try discriminate H; injection H as <-; simpl ours; simpl aws.
  - exists 8917127262193582%positive, 6890507429876859%positive, (-53).
    repeat split; try reflexivity; lia.
  - exists 8962163258467287%positive, 5764607523034235%positive, (-52).
    repeat split; try reflexivity; lia.
  - exists 8984681256604140%positive, 6890507429876859%positive, (-51).
    repeat split; try reflexivity; lia.
Qed.

Lemma in_gpu_types_lookup (g : string) (c : Costs) (hours : float) :
  In g gpu_types ->
  costs hours g = Some c ->
  exists p, lookup gpuPrices g = Some p
            /\ awsCost c = (hours * aws p)%float /\ ourCost c = (hours * ours p)%float.
Proof.
  intros Hg. destruct (lookup_gpu_types g Hg) as [p Hp].
  rewrite (costs_lookup hours g p Hp). intros H. inversion H.
  exists p. repeat split. exact Hp.
Qed.

Lemma Prim2SF_1e300 : Prim2SF 1e300 = S754_finite false 6724873095247260 944.
Proof. reflexivity. Qed.

Lemma product_finite_up_to_1e300 (h o : float) (mo : positive) (eo : Z) :
  Prim2SF o = S754_finite false mo eo ->
  2 ^ 52 <= Z.pos mo < 2 ^ 53 -> -53 <= eo <= -51 ->
  (0 <? h)%float = true -> (h <=? 1e300)%float = true ->
  (h * o <? infinity)%float = true.
Proof.
  intros Ho Hmo Heo.
  rewrite !ltb_spec, leb_spec, mul_spec, Ho, Prim2SF_0, Prim2SF_1e300.
  change (Prim2SF infinity) with (S754_infinity false).
  pose proof (Prim2SF_valid h) as Hv.
  destruct (Prim2SF h) as [s|s| |s m e]; try discriminate.
  - destruct s; discriminate.
  - destruct s; [discriminate|]. intros _ Hle.
    apply SFleb_finite_pos in Hle.
    now apply bounded_product_finite.
Qed.

(** C7.  For every GPU type of the price table and every hours value above
    0, the platform cost is strictly below the provider cost.  The hours are
    a binary64 number; the statement covers every such number up to 1e300,
    hence every value the component can hold (100 at first, then the
    integers from 10 to 730 that the range input hands over). *)
Theorem platform_below_provider (hours : float) (g : string) (c : Costs) :
  In g ["T4"; "A10G"; "A100"]%string ->
  (0 <? hours)%float = true ->
  (hours <=? 1e300)%float = true ->
  costs hours g = Some c ->
  (ourCost c <? awsCost c)%float = true.
Proof.
  intros Hg Hpos Hle Hc.
  destruct (in_gpu_types_lookup g c hours Hg Hc) as [p [Hp [-> ->]]].
  destruct (price_entries_scaled g p Hp) as [mo [ma [eo [E1 [E2 [B1 [B2 B3]]]]]]].
  apply (product_lt_of_scaled hours (ours p) (aws p) mo ma eo E1 E2 B1 B2 B3 Hpos).
  exact (product_finite_up_to_1e300 hours (ours p) mo eo E1 B1 B3 Hpos Hle).
Qed.

Lemma platform_below_provider_witness :
  exists c : Costs,
    costs (slider_hours 730) "A100" = Some c /\ (ourCost c <? awsCost c)%float = true.
Proof.
  eexists. split; [reflexivity|].
  apply (platform_below_provider (slider_hours 730) "A100").
  - simpl. auto.
  - reflexivity.
  - reflexivity.
  - reflexivity.
Defined.

(** Far beyond what the range input can hand over the products overflow: at
    1e308 hours on an A10G both costs are [Infinity], and neither is below
    the other. *)
Lemma platform_not_cheaper_at_1e308 :
  exists c : Costs,
    (0 <? 1e308)%float = true
    /\ In "A10G"%string ["T4"; "A10G"; "A100"]%string
    /\ costs 1e308 "A10G" = Some c
    /\ ourCost c = infinity /\ awsCost c = infinity
    /\ (ourCost c <? awsCost c)%float = false.
Proof.
  eexists. split; [reflexivity|]. split; [simpl; auto|].
  split; [reflexivity|]. repeat split; reflexivity.
Qed.

(** X19.  Overflow is the only way the comparison can fail: for every GPU
    type of the price table and every hours value above 0, subnormal ones
    included, a platform cost that is finite is strictly below the provider
    cost. *)
Theorem platform_cheaper_when_finite (hours : float) (g : string) (c : Costs) :
  In g ["T4"; "A10G"; "A100"]%string ->
  (0 <? hours)%float = true ->
  costs hours g = Some c ->
  (ourCost c <? infinity)%float = true ->
  (ourCost c <? awsCost c)%float = true.
Proof.
  intros Hg Hpos Hc Hfin.
  destruct (in_gpu_types_lookup g c hours Hg Hc) as [p [Hp [-> Ho]]].
  rewrite Ho in *.
  destruct (price_entries_scaled g p Hp) as [mo [ma [eo [E1 [E2 [B1 [B2 B3]]]]]]].
  exact (product_lt_of_scaled hours (ours p) (aws p) mo ma eo E1 E2 B1 B2 B3 Hpos Hfin).
Qed.

Lemma platform_cheaper_when_finite_witness :
  exists c : Costs,
    costs 5e-324 "T4" = Some c /\ (ourCost c <? awsCost c)%float = true.
Proof.
  eexists. split; [reflexivity|].
  apply (platform_cheaper_when_finite 5e-324 "T4").
  - simpl. auto.
  - reflexivity.
  - reflexivity.
  - reflexivity.
Defined.

(** On every value of the range input the platform cost is finite, so the
    comparison holds there. *)
Lemma platform_cost_finite_check :
  forallb (fun g => forallb (fun n =>
     match costs (slider_hours n) g with
     | Some c => PrimFloat.ltb (ourCost c) infinity
     | None => false
     end) slider_range) gpu_types = true.
Proof. vm_compute. reflexivity. Qed.

(** ** The percentage and the hours *)

(** Far below what the range input can hand over the rounding of the
    products shows: at 100 hours an A10G shows 61 percent, at the smallest
    positive binary64 number of hours it shows 60. *)
Lemma percent_differs_at_tiny_hours :
  exists c1 c2 : Costs,
    (0 <? 100)%float = true /\ (0 <? 5e-324)%float = true
    /\ costs 100 "A10G" = Some c1 /\ costs 5e-324 "A10G" = Some c2
    /\ savingsPercent c1 = Digits "61" /\ savingsPercent c2 = Digits "60"
    /\ savingsPercent c1 <> savingsPercent c2.
Proof.
  do 2 eexists. do 4 (split; [reflexivity|]).
  split; [reflexivity|]. split; [reflexivity|].
  vm_compute. discriminate.
Qed.




(** ** Resuming an instance *)

Section ResumeFacts.
Variable random : nat -> float.

Lemma map_resume (id0 : string) (l : list Instance) :
  forall k,
    map_instances (update_instance random id0 resume) l k =
      (resumed_from random id0 k l, (k + count_id id0 l)%nat).
Proof.
  induction l as [|i l IH]; intros k; simpl.
  - unfold ret, count_id. simpl. f_equal. lia.
  - unfold bind, update_instance, count_id. simpl filter.
    destruct (String.eqb (id i) id0); simpl;
      rewrite IH; unfold ret, count_id; simpl; f_equal; lia.
Qed.

Lemma handle_resume (id0 : string) (l : list Instance) (k : nat) :
  handleInstanceAction random id0 resume l k =
    (resumed_from random id0 k l, (k + count_id id0 l)%nat).
Proof. unfold handleInstanceAction, bind. rewrite map_resume. reflexivity. Qed.

Lemma resumed_from_length (id0 : string) (l : list Instance) :
  forall k, List.length (resumed_from random id0 k l) = List.length l.
Proof.
  induction l as [|i l IH]; intros k; simpl; [reflexivity|].
  destruct (String.eqb (id i) id0); simpl; now rewrite IH.
Qed.

Lemma resumed_from_nth (id0 : string) (l : list Instance) :
  forall k j i,
    nth_error l j = Some i ->
    nth_error (resumed_from random id0 k l) j =
      Some (if String.eqb (id i) id0
            then with_status_utilization i running
                   (random (k + count_id id0 (firstn j l))%nat * 100)%float
            else i).
Proof.
  induction l as [|x l IH]; intros k j i Hj; [destruct j; discriminate|].
  destruct j as [|j]; simpl in Hj.
  - injection Hj as ->. simpl. unfold count_id. simpl.
    destruct (String.eqb (id i) id0); simpl; [|reflexivity].
    now rewrite Nat.add_0_r.
  - simpl resumed_from. unfold count_id. simpl firstn. simpl filter.
    destruct (String.eqb (id x) id0); simpl; rewrite (IH _ j i Hj);
      unfold count_id; [|reflexivity].
    now rewrite Nat.add_succ_r.
Qed.

Lemma resumed_from_In (id0 : string) (l : list Instance) :
  forall k i',
    In i' (resumed_from random id0 k l) -> id i' = id0 ->
    exists i n, In i l /\ id i = id0 /\ (k <= n)%nat
                /\ i' = with_status_utilization i running (random n * 100)%float.
Proof.
  induction l as [|x l IH]; intros k i' Hin Hid; simpl in Hin; [contradiction|].
  destruct (String.eqb_spec (id x) id0) as [E|E].
  - destruct Hin as [<-|Hin].
    + exists x, k. repeat split; auto. now left.
    + destruct (IH _ _ Hin Hid) as [i [n [Hi [Hidi [Hn ->]]]]].
      exists i, n. repeat split; auto; [now right|lia].
  - destruct Hin as [<-|Hin]; [contradiction|].
    destruct (IH _ _ Hin Hid) as [i [n [Hi [Hidi [Hn ->]]]]].
    exists i, n. repeat split; auto. now right.
Qed.

Lemma resumed_from_present (id0 : string) (l : list Instance) :
  forall k, In id0 (map id l) ->
            exists i', In i' (resumed_from random id0 k l) /\ id i' = id0.
Proof.
  induction l as [|x l IH]; intros k Hin; simpl in Hin; [contradiction|].
  simpl. destruct (String.eqb_spec (id x) id0) as [E|E].
  - eexists. split; [left; reflexivity|exact E].
  - destruct Hin as [Hin|Hin]; [contradiction|].
    destruct (IH k Hin) as [i' [Hi' Hid]]. exists i'. split; [now right|exact Hid].
Qed.
End ResumeFacts.

(** C4.  For every instance list, every identifier present in it and every
    sequence of values in [0, 1) drawn from [Math.random], the resume action
    leaves the same records in the same places, except that each record with
    that identifier now has status [running] and a utilisation of r * 100,
    where r is the value drawn for it (the draws are taken in list order);
    that utilisation lies in [0, 100). *)
Theorem resume_sets_running_and_draws
        (random : nat -> float) (id0 : string) (l : list Instance) (k : nat) :
  (forall n, in_unit_interval (random n)) ->
  In id0 (map id l) ->
  let l' := fst (handleInstanceAction random id0 resume l k) in
  List.length l' = List.length l
  /\ (forall j i, nth_error l j = Some i ->
        nth_error l' j =
          Some (if String.eqb (id i) id0
                then with_status_utilization i running
                       (random (k + count_id id0 (firstn j l))%nat * 100)%float
                else i))
  /\ (forall i', In i' l' -> id i' = id0 ->
        status i' = running
        /\ (exists n, (k <= n)%nat /\ gpu_utilization i' = (random n * 100)%float)
        /\ (0 <=? gpu_utilization i')%float = true
        /\ (gpu_utilization i' <? 100)%float = true)
  /\ (exists i', In i' l' /\ id i' = id0).
Proof.
  intros Hr Hin l'. subst l'. rewrite handle_resume. simpl fst.
  split; [apply resumed_from_length|]. split; [apply resumed_from_nth|]. split.
  - intros i' Hi' Hid.
    destruct (resumed_from_In random id0 l k i' Hi' Hid) as [i [n [_ [_ [Hn ->]]]]].
    simpl. split; [reflexivity|]. split; [exists n; auto|].
    destruct (Hr n) as [H0 H1]. exact (times_100_in_range (random n) H0 H1).
  - now apply resumed_from_present.
Qed.

Lemma resume_sets_running_and_draws_witness :
  let l' := fst (handleInstanceAction (fun _ => 0.5%float) "gpu-2" resume
                   initial_instances 0%nat) in
  List.length l' = List.length initial_instances
  /\ (forall j i, nth_error initial_instances j = Some i ->
        nth_error l' j =
          Some (if String.eqb (id i) "gpu-2"
                then with_status_utilization i running
                       (0.5 * 100)%float
                else i))
  /\ (forall i', In i' l' -> id i' = "gpu-2"%string ->
        status i' = running
        /\ (exists n, (0 <= n)%nat /\ gpu_utilization i' = (0.5 * 100)%float)
        /\ (0 <=? gpu_utilization i')%float = true
        /\ (gpu_utilization i' <? 100)%float = true)
  /\ (exists i', In i' l' /\ id i' = "gpu-2"%string).
Proof.
  apply (resume_sets_running_and_draws (fun _ => 0.5%float) "gpu-2" initial_instances 0%nat).
  - intros n. split; reflexivity.
  - simpl. auto.
Defined.

(** * Further properties of the dashboard handler *)

Section ActionFacts.
Variable random : nat -> float.

Lemma update_instance_id (id0 : string) (a : Action) (i : Instance) (k : nat) :
  same_static_fields i (fst (update_instance random id0 a i k)).
Proof.
  unfold update_instance, same_static_fields.
  destruct (String.eqb (id i) id0); [destruct a|]; simpl; repeat split.
Qed.

Lemma map_instances_ids (id0 : string) (a : Action) (l : list Instance) :
  forall k, map id (fst (map_instances (update_instance random id0 a) l k)) = map id l.
Proof.
  induction l as [|i l IH]; intros k; simpl; [reflexivity|].
  unfold bind.
  pose proof (update_instance_id id0 a i k) as [Hid _].
  destruct (update_instance random id0 a i k) as [i' k1]. simpl in Hid.
  specialize (IH k1). destruct (map_instances _ l k1) as [l' k2].
  simpl in *. now rewrite IH, Hid.
Qed.

Lemma map_instances_unchanged (id0 : string) (a : Action) (l : list Instance) :
  ~ In id0 (map id l) ->
  forall k, map_instances (update_instance random id0 a) l k = (l, k).
Proof.
  induction l as [|i l IH]; intros Hnot k; simpl; [reflexivity|].
  simpl in Hnot. unfold bind, update_instance at 1.
  destruct (String.eqb_spec (id i) id0) as [E|E]; [tauto|].
  unfold ret. rewrite IH by tauto. reflexivity.
Qed.

Lemma handle_shape (id0 : string) (a : Action) (l : list Instance) (k : nat) :
  handleInstanceAction random id0 a l k =
    match a with
    | pause => (map (paused_copy id0) l, k)
    | resume => (resumed_from random id0 k l, (k + count_id id0 l)%nat)
    | delete => (remove_id id0 l, k)
    end.
Proof.
  destruct a; [apply handle_pause|apply handle_resume|apply handle_delete].
Qed.

Lemma remove_id_In (id0 : string) (l : list Instance) (i : Instance) :
  In i (remove_id id0 l) <-> In i l /\ id i <> id0.
Proof.
  unfold remove_id. rewrite filter_In, negb_true_iff.
  destruct (String.eqb_spec (id i) id0); intuition congruence.
Qed.

Lemma remove_id_length (id0 : string) (l : list Instance) :
  (List.length (remove_id id0 l) + count_id id0 l = List.length l)%nat.
Proof.
  unfold remove_id, count_id. induction l as [|i l IH]; simpl; [reflexivity|].
  destruct (String.eqb (id i) id0); simpl; lia.
Qed.

Lemma paused_copy_id (id0 : string) (i : Instance) : id (paused_copy id0 i) = id i.
Proof. unfold paused_copy. destruct (String.eqb (id i) id0); reflexivity. Qed.

Lemma paused_copy_idempotent (id0 : string) (i : Instance) :
  paused_copy id0 (paused_copy id0 i) = paused_copy id0 i.
Proof.
  unfold paused_copy. destruct (String.eqb (id i) id0) eqn:E; simpl; rewrite E; reflexivity.
Qed.

Lemma remove_id_map_paused (id1 id2 : string) (l : list Instance) :
  remove_id id1 (map (paused_copy id2) l) = map (paused_copy id2) (remove_id id1 l).
Proof.
  unfold remove_id. induction l as [|i l IH]; simpl; [reflexivity|].
  rewrite paused_copy_id. destruct (String.eqb (id i) id1); simpl; now rewrite IH.
Qed.

Lemma remove_id_paused_same (id0 : string) (l : list Instance) :
  remove_id id0 (map (paused_copy id0) l) = remove_id id0 l.
Proof.
  unfold remove_id. induction l as [|i l IH]; simpl; [reflexivity|].
  rewrite paused_copy_id. destruct (String.eqb (id i) id0) eqn:E; simpl; rewrite IH;
    [reflexivity|]. unfold paused_copy. now rewrite E.
Qed.

Lemma paused_copy_comm (id1 id2 : string) (i : Instance) :
  paused_copy id1 (paused_copy id2 i) = paused_copy id2 (paused_copy id1 i).
Proof.
  unfold paused_copy.
  destruct (String.eqb (id i) id1) eqn:E1, (String.eqb (id i) id2) eqn:E2;
    simpl; rewrite ?E1, ?E2; reflexivity.
Qed.

Lemma remove_id_comm (id1 id2 : string) (l : list Instance) :
  remove_id id1 (remove_id id2 l) = remove_id id2 (remove_id id1 l).
Proof.
  unfold remove_id. induction l as [|i l IH]; simpl; [reflexivity|].
  destruct (String.eqb (id i) id1) eqn:E1, (String.eqb (id i) id2) eqn:E2;
    simpl; rewrite ?E1, ?E2; simpl; now rewrite ?IH.
Qed.
End ActionFacts.

(** X1.  An action on an identifier that is not in the list changes nothing,
    whatever the action, and draws no random number. *)
Theorem action_on_absent_id_is_noop
        (random : nat -> float) (id0 : string) (a : Action) (l : list Instance) (k : nat) :
  ~ In id0 (map id l) ->
  handleInstanceAction random id0 a l k = (l, k).
Proof.
  intros Hnot. unfold handleInstanceAction, bind.
  rewrite map_instances_unchanged by assumption.
  destruct a; unfold ret; try reflexivity.
  now rewrite remove_id_absent.
Qed.

Lemma action_on_absent_id_is_noop_witness :
  handleInstanceAction (fun _ => 0.5%float) "gpu-9" resume initial_instances 4%nat
  = (initial_instances, 4%nat).
Proof.
  apply (action_on_absent_id_is_noop (fun _ => 0.5%float) "gpu-9" resume initial_instances 4%nat).
  simpl. intuition discriminate.
Defined.

(** X2.  Delete removes every record that carries the identifier, also when
    several do: a record is in the result exactly when it was in the list
    with another identifier, the length drops by the number of records with
    the identifier, and no random number is drawn. *)
Theorem delete_removes_every_record_with_id
        (random : nat -> float) (id0 : string) (l : list Instance) (k : nat) :
  let r := handleInstanceAction random id0 delete l k in
  (forall i, In i (fst r) <-> In i l /\ id i <> id0)
  /\ (List.length (fst r) + count_id id0 l = List.length l)%nat
  /\ ~ In id0 (map id (fst r))
  /\ snd r = k.
Proof.
  intros r. subst r. rewrite handle_delete. simpl.
  split; [intros i; apply remove_id_In|]. split; [apply remove_id_length|].
  split; [|reflexivity].
  intros Hin. apply in_map_iff in Hin. destruct Hin as [i [Hid Hi]].
  apply remove_id_In in Hi. tauto.
Qed.

(** X3.  One application of the updater that [handleInstanceAction] hands
    to [setInstances] (the [prev.map] one) calls [Math.random] once per
    record that carries the identifier when the action is resume, in list
    order, and never when the action is pause or delete; the second updater
    of a delete (the [filter]) never calls it. *)
Theorem updater_draws_per_application
        (random : nat -> float) (id0 : string) (a : Action) (l : list Instance) (k : nat) :
  snd (map_instances (update_instance random id0 a) l k) =
    match a with
    | resume => (k + count_id id0 l)%nat
    | _ => k
    end.
Proof.
  destruct a; [rewrite map_pause|rewrite map_resume|rewrite map_delete]; reflexivity.
Qed.

(** X4.  Pausing twice is pausing once, deleting twice is deleting once, and
    a delete after a pause of the same identifier is just the delete. *)
Theorem pause_and_delete_idempotent
        (random : nat -> float) (id0 : string) (l : list Instance) (k : nat) :
  let once a := fst (handleInstanceAction random id0 a l k) in
  fst (handleInstanceAction random id0 pause (once pause) k) = once pause
  /\ fst (handleInstanceAction random id0 delete (once delete) k) = once delete
  /\ fst (handleInstanceAction random id0 delete (once pause) k) = once delete.
Proof.
  intros once. subst once. cbv beta.
  repeat (rewrite ?handle_pause, ?handle_delete; simpl fst).
  split; [|split].
  - rewrite map_map. apply map_ext, paused_copy_idempotent.
  - apply remove_id_absent. intros Hin. apply in_map_iff in Hin.
    destruct Hin as [i [Hid Hi]]. apply remove_id_In in Hi. tauto.
  - apply remove_id_paused_same.
Qed.

(** X5.  Pause and delete calls commute, on the same or on different
    identifiers: the order of two such calls does not matter. *)
Theorem pause_and_delete_commute
        (random : nat -> float) (id1 id2 : string) (a1 a2 : Action)
        (l : list Instance) (k : nat) :
  a1 <> resume -> a2 <> resume ->
  handle_all random [(id1, a1); (id2, a2)] l k
  = handle_all random [(id2, a2); (id1, a1)] l k.
Proof.
  intros H1 H2. simpl. unfold bind, ret.
  destruct a1; [|contradiction|]; destruct a2; try contradiction;
    rewrite ?handle_pause, ?handle_delete; rewrite ?handle_pause, ?handle_delete;
    f_equal.
  - rewrite !map_map. apply map_ext. intros i. apply paused_copy_comm.
  - apply remove_id_map_paused.
  - symmetry. apply remove_id_map_paused.
  - apply remove_id_comm.
Qed.

Lemma pause_and_delete_commute_witness :
  handle_all (fun _ => 0.5%float) [("gpu-1"%string, pause); ("gpu-3"%string, delete)]
             initial_instances 0%nat
  = handle_all (fun _ => 0.5%float) [("gpu-3"%string, delete); ("gpu-1"%string, pause)]
               initial_instances 0%nat.
Proof.
  apply (pause_and_delete_commute (fun _ => 0.5%float) "gpu-1" "gpu-3" pause delete
           initial_instances 0%nat); discriminate.
Defined.

(** ** Invariants over any sequence of calls *)

Section SequenceFacts.
Variable random : nat -> float.

Lemma map_instances_In (f : Instance -> Rand Instance) (l : list Instance) :
  forall k i',
    In i' (fst (map_instances f l k)) ->
    exists i k', In i l /\ i' = fst (f i k').
Proof.
  induction l as [|x l IH]; intros k i' Hin; simpl in Hin; [contradiction|].
  unfold bind in Hin. destruct (f x k) as [x' k1] eqn:Ex.
  specialize (IH k1). destruct (map_instances f l k1) as [l' k2].
  simpl in *. destruct Hin as [<-|Hin].
  - exists x, k. split; [now left|]. now rewrite Ex.
  - destruct (IH i' Hin) as [i [k' [Hi ->]]]. exists i, k'. split; [now right|reflexivity].
Qed.

Lemma handleInstanceAction_In (id0 : string) (a : Action) (l : list Instance) (k : nat)
      (i' : Instance) :
  In i' (fst (handleInstanceAction random id0 a l k)) ->
  exists i k', In i l /\ i' = fst (update_instance random id0 a i k').
Proof.
  unfold handleInstanceAction, bind.
  pose proof (map_instances_In (update_instance random id0 a) l k i') as H.
  destruct (map_instances (update_instance random id0 a) l k) as [l' k1].
  simpl in H. destruct a; simpl; auto.
  intros Hin. apply remove_id_In in Hin. tauto.
Qed.

Lemma handleInstanceAction_ids (id0 : string) (a : Action) (l : list Instance) (k : nat) :
  map id (fst (handleInstanceAction random id0 a l k)) =
    match a with
    | delete => filter (fun s => negb (String.eqb s id0)) (map id l)
    | _ => map id l
    end.
Proof.
  unfold handleInstanceAction, bind.
  pose proof (map_instances_ids random id0 a l k) as H.
  destruct (map_instances (update_instance random id0 a) l k) as [l' k1].
  simpl in H. destruct a; simpl; auto.
  rewrite <- H. unfold remove_id. clear H.
  induction l' as [|x l' IH]; simpl; [reflexivity|].
  destruct (String.eqb (id x) id0); simpl; now rewrite IH.
Qed.

(** A property of lists that every call preserves holds after any
    sequence of calls. *)
Lemma handle_all_invariant (P : list Instance -> Prop) :
  (forall id0 a l k, P l -> P (fst (handleInstanceAction random id0 a l k))) ->
  forall calls l k, P l -> P (fst (handle_all random calls l k)).
Proof.
  intros Hstep. induction calls as [|[id0 a] calls IH]; intros l k Hl; simpl; [exact Hl|].
  unfold bind. pose proof (Hstep id0 a l k Hl) as H.
  destruct (handleInstanceAction random id0 a l k) as [l' k']. now apply IH.
Qed.

Lemma same_static_fields_trans (i j x : Instance) :
  same_static_fields i j -> same_static_fields j x -> same_static_fields i x.
Proof. unfold same_static_fields. intuition congruence. Qed.

Lemma update_instance_stopped (id0 : string) (a : Action) (i : Instance) (k : nat) :
  status (fst (update_instance random id0 a i k)) = stopped ->
  fst (update_instance random id0 a i k) = i.
Proof.
  unfold update_instance. destruct (String.eqb (id i) id0); [|reflexivity].
  destruct a; simpl; try discriminate; reflexivity.
Qed.

Lemma update_instance_in_range (id0 : string) (a : Action) (i : Instance) (k : nat) :
  (forall n, in_unit_interval (random n)) ->
  utilization_in_range i ->
  utilization_in_range (fst (update_instance random id0 a i k)).
Proof.
  intros Hr Hi. unfold update_instance.
  destruct (String.eqb (id i) id0); [|exact Hi].
  destruct a; simpl; [split; reflexivity| |exact Hi].
  destruct (Hr k) as [H0 H1]. exact (times_100_in_range (random k) H0 H1).
Qed.

Lemma handleInstanceAction_Forall (P : Instance -> Prop) (id0 : string) (a : Action) :
  (forall i k, P i -> P (fst (update_instance random id0 a i k))) ->
  forall l k, Forall P l -> Forall P (fst (handleInstanceAction random id0 a l k)).
Proof.
  intros Hstep l k Hl. rewrite Forall_forall in *. intros i' Hin.
  destruct (handleInstanceAction_In id0 a l k i' Hin) as [i [k' [Hi ->]]].
  apply Hstep, Hl, Hi.
Qed.
End SequenceFacts.

(** X6.  Identifiers stay unique: starting from a list with pairwise
    different identifiers, after any sequence of calls the identifiers are
    still pairwise different and each of them was in the starting list; the
    list never grows. *)
Theorem identifiers_stay_unique
        (random : nat -> float) (calls : list (string * Action))
        (l : list Instance) (k : nat) :
  NoDup (map id l) ->
  let l' := fst (handle_all random calls l k) in
  NoDup (map id l') /\ incl (map id l') (map id l)
  /\ (List.length l' <= List.length l)%nat.
Proof.
  intros Hnd l'. subst l'.
  apply (handle_all_invariant random
           (fun l' => NoDup (map id l') /\ incl (map id l') (map id l)
                      /\ (List.length l' <= List.length l)%nat)).
  - intros id0 a l1 k1 [H1 [H2 H3]].
    pose proof (handleInstanceAction_ids random id0 a l1 k1) as Hids.
    assert (Hlen : List.length (fst (handleInstanceAction random id0 a l1 k1))
                   = List.length (map id (fst (handleInstanceAction random id0 a l1 k1))))
      by (now rewrite length_map).
    rewrite Hlen, Hids.
    destruct a; try (rewrite length_map; tauto).
    split; [now apply NoDup_filter|]. split.
    + intros s Hs. apply filter_In in Hs. apply H2, Hs.
    + pose proof (filter_length_le (fun s => negb (String.eqb s id0)) (map id l1)) as Hle.
      rewrite length_map in Hle. lia.
  - split; [exact Hnd|]. split; [apply incl_refl|lia].
Qed.

Lemma identifiers_stay_unique_witness :
  let l' := fst (handle_all (fun _ => 0.5%float)
                   [("gpu-2"%string, resume); ("gpu-1"%string, delete)]
                   initial_instances 0%nat) in
  NoDup (map id l') /\ incl (map id l') (map id initial_instances)
  /\ (List.length l' <= List.length initial_instances)%nat.
Proof.
  apply (identifiers_stay_unique (fun _ => 0.5%float)
           [("gpu-2"%string, resume); ("gpu-1"%string, delete)] initial_instances 0%nat).
  simpl. repeat constructor; simpl; intuition discriminate.
Defined.

(** X7.  No sequence of calls writes any field other than the status and
    the utilisation: every record of the resulting list agrees with a record
    of the starting list on identifier, name, GPU type, hourly cost, total
    cost, savings, uptime and address. *)
Theorem calls_touch_only_status_and_utilization
        (random : nat -> float) (calls : list (string * Action))
        (l : list Instance) (k : nat) :
  Forall (fun i' => exists i, In i l /\ same_static_fields i i')
         (fst (handle_all random calls l k)).
Proof.
  apply (handle_all_invariant random
           (fun l' => Forall (fun i' => exists i, In i l /\ same_static_fields i i') l')).
  - intros id0 a l1 k1 H1. rewrite Forall_forall in *. intros i' Hin.
    destruct (handleInstanceAction_In random id0 a l1 k1 i' Hin) as [x [k' [Hx ->]]].
    destruct (H1 x Hx) as [i [Hi Hs]]. exists i. split; [exact Hi|].
    eapply same_static_fields_trans; [exact Hs|apply update_instance_id].
  - rewrite Forall_forall. intros i Hi. exists i. split; [exact Hi|].
    unfold same_static_fields. repeat split.
Qed.

(** X8.  No call ever sets the status [stopped]: after any sequence of
    calls, a record that is stopped was in the starting list, stopped and
    with the same contents; from the dashboard's initial list no record is
    ever stopped. *)
Theorem stopped_is_never_set
        (random : nat -> float) (calls : list (string * Action)) (k : nat) :
  (forall l i', In i' (fst (handle_all random calls l k)) ->
                status i' = stopped -> In i' l)
  /\ Forall (fun i' => status i' <> stopped)
            (fst (handle_all random calls initial_instances k)).
Proof.
  assert (H : forall l i', In i' (fst (handle_all random calls l k)) ->
                           status i' = stopped -> In i' l).
  { intros l.
    apply (handle_all_invariant random
             (fun l' => forall i', In i' l' -> status i' = stopped -> In i' l)).
    - intros id0 a l1 k1 H1 i' Hin Hst.
      destruct (handleInstanceAction_In random id0 a l1 k1 i' Hin) as [x [k' [Hx E]]].
      subst i'. pose proof (update_instance_stopped random id0 a x k' Hst) as E.
      rewrite E in Hst |- *. apply H1; assumption.
    - auto. }
  split; [exact H|].
  rewrite Forall_forall. intros i' Hin Hst.
  specialize (H initial_instances i' Hin Hst). simpl in H.
  destruct H as [<-|[<-|[<-|[]]]]; discriminate Hst.
Qed.

(** X9.  The utilisation stays a percentage: when [Math.random] returns
    numbers in [0, 1) and every utilisation of the starting list is in
    [0, 100), so is every utilisation after any sequence of calls. *)
Theorem utilization_stays_in_range
        (random : nat -> float) (calls : list (string * Action))
        (l : list Instance) (k : nat) :
  (forall n, in_unit_interval (random n)) ->
  Forall utilization_in_range l ->
  Forall utilization_in_range (fst (handle_all random calls l k)).
Proof.
  intros Hr. apply (handle_all_invariant random (Forall utilization_in_range)).
  intros id0 a l1 k1. apply handleInstanceAction_Forall.
  intros i k'. now apply update_instance_in_range.
Qed.

Lemma utilization_stays_in_range_witness :
  Forall utilization_in_range
         (fst (handle_all (fun _ => 0.5%float)
                 [("gpu-2"%string, resume); ("gpu-1"%string, pause)]
                 initial_instances 0%nat)).
Proof.
  apply (utilization_stays_in_range (fun _ => 0.5%float)).
  - intros n. split; reflexivity.
  - repeat (apply Forall_cons; [split; reflexivity|]). apply Forall_nil.
Defined.

(** ** What the dashboard shows *)

(** X10.  A utilisation in [0, 100) shows as a whole number of percent
    between 0 and 100: [toFixed(0)] gives the decimal digits of an integer
    in that range (100 included, by rounding), never a sign, a fraction,
    [NaN] or an exponent form. *)
Theorem utilization_shows_whole_percent (i : Instance) :
  utilization_in_range i ->
  exists n : Z, 0 <= n <= 100 /\ utilization_text i = Digits (decimal_digits n).
Proof.
  unfold utilization_in_range, utilization_text, toFixed.
  rewrite leb_spec, ltb_spec, Prim2SF_0, Prim2SF_100.
  pose proof (Prim2SF_valid (gpu_utilization i)) as Hv.
  change (100 <? 0)%nat with false. cbv iota.
  destruct (Prim2SF (gpu_utilization i)) as [s|s| |s m e]; intros [H0 H1].
  - exists 0. split; [lia|reflexivity].
  - destruct s; discriminate.
  - discriminate.
  - destruct s; [discriminate|].
    simpl in Hv. apply bounded_canonical in Hv. cbv zeta in Hv.
    apply SFltb_finite_pos in H1.
    destruct (Zdigits2_bounds (Z.pos m) ltac:(lia)) as [_ Hm].
    set (d := Zdigits2 (Z.pos m)) in *.
    assert (Hm53 : Z.pos m < 2 ^ 53).
    { apply Z.lt_le_trans with (2 ^ d); [lia|]. apply Z.pow_le_mono_r; lia. }
    assert (He : e <= -46) by lia.
    assert (HP : 2 ^ 46 <= 2 ^ (- e)) by (apply Z.pow_le_mono_r; lia).
    assert (HP' : e < -46 -> 2 ^ 47 <= 2 ^ (- e)) by (intros; apply Z.pow_le_mono_r; lia).
    assert (Hpow : 2 ^ (1 - e) = 2 * 2 ^ (- e)).
    { replace (1 - e) with (1 + - e) by lia. rewrite Z.pow_add_r by lia. lia. }
    unfold at_least_1e21, nearest_scaled.
    destruct (Z.leb_spec 0 e) as [|_]; [lia|].
    destruct (Z.leb_spec (10 ^ 21 * 2 ^ (- e)) (Z.pos m)) as [Hbig|_]; [exfalso; nia|].
    change (10 ^ Z.of_nat 0) with 1. rewrite Hpow.
    set (P := 2 ^ (- e)) in *.
    exists ((2 * Z.pos m * 1 + P) / (2 * P)). split; [|reflexivity].
    split.
    + apply Z.div_pos; lia.
    + apply Z.lt_succ_r. apply Z.div_lt_upper_bound; [lia|].
      destruct (Z.eq_dec e (-46)) as [E|E].
      * destruct H1 as [H1|[_ H1]]; [lia|]. subst e. unfold P. simpl Z.opp. lia.
      * specialize (HP' ltac:(lia)). lia.
Qed.

Lemma utilization_shows_whole_percent_witness :
  exists n : Z,
    0 <= n <= 100
    /\ utilization_text
         {| id := "gpu-1"; name := "Llama-3-Training"; gpu_type := "A100";
            status := running; cost_per_hour := 3.99; total_cost := 127.68;
            Dashboard.savings := 89.38; gpu_utilization := 99.99999999999999;
            uptime := "32h 15m"; public_ip := "20.124.56.78" |}
       = Digits (decimal_digits n).
Proof.
  apply utilization_shows_whole_percent. split; reflexivity.
Defined.

Section OverviewFacts.
Variable random : nat -> float.

Lemma map_instances_total_cost (id0 : string) (a : Action) (l : list Instance) :
  forall k,
    map total_cost (fst (map_instances (update_instance random id0 a) l k))
    = map total_cost l.
Proof.
  induction l as [|i l IH]; intros k; simpl; [reflexivity|].
  unfold bind.
  pose proof (update_instance_id random id0 a i k) as [_ [_ [_ [_ [Hc _]]]]].
  destruct (update_instance random id0 a i k) as [i' k1]. simpl in Hc.
  specialize (IH k1). destruct (map_instances _ l k1) as [l' k2].
  simpl in *. now rewrite IH, Hc.
Qed.

Lemma total_spend_map (l : list Instance) :
  total_spend l = fold_left PrimFloat.add (map total_cost l) 0%float.
Proof.
  unfold total_spend. generalize 0%float as acc.
  induction l as [|i l IH]; intros acc; simpl; [reflexivity|apply IH].
Qed.

Lemma count_status_paused_copy (id0 : string) (l : list Instance) :
  (count_status running (map (paused_copy id0) l)
   + List.length (filter (fun i => String.eqb (id i) id0
                                   && status_eqb (status i) running) l)
   = count_status running l)%nat
  /\ (count_status paused (map (paused_copy id0) l)
      = count_status paused l
        + List.length (filter (fun i => String.eqb (id i) id0
                                        && negb (status_eqb (status i) paused)) l))%nat.
Proof.
  unfold count_status, paused_copy.
  induction l as [|i l [IH1 IH2]]; simpl; [split; reflexivity|].
  destruct (String.eqb (id i) id0); destruct (status i); simpl; split; lia.
Qed.

Lemma count_status_resumed (id0 : string) (l : list Instance) :
  forall k,
    (count_status running (resumed_from random id0 k l)
     = count_status running l
       + List.length (filter (fun i => String.eqb (id i) id0
                                       && negb (status_eqb (status i) running)) l))%nat
    /\ (count_status paused (resumed_from random id0 k l)
        + List.length (filter (fun i => String.eqb (id i) id0
                                        && status_eqb (status i) paused) l)
        = count_status paused l)%nat.
Proof.
  unfold count_status.
  induction l as [|i l IH]; intros k; simpl; [split; reflexivity|].
  destruct (IH k) as [IH1 IH2]. destruct (IH (S k)) as [IH1' IH2'].
  destruct (String.eqb (id i) id0); simpl; destruct (status i); simpl; split; lia.
Qed.
End OverviewFacts.

(** X11.  Pause and resume leave the Active GPUs count and both Current
    Spend figures as they are: the handler keeps the list length and never
    writes [total_cost], which the sums are folded from. *)
Theorem pause_and_resume_keep_spend
        (random : nat -> float) (id0 : string) (a : Action) (l : list Instance) (k : nat) :
  a <> delete ->
  let l' := fst (handleInstanceAction random id0 a l k) in
  active_gpus (overview l') = active_gpus (overview l)
  /\ current_spend (overview l') = current_spend (overview l)
  /\ aws_spend (overview l') = aws_spend (overview l).
Proof.
  intros Ha l'. unfold overview. simpl.
  assert (Hlen : List.length l' = List.length l).
  { subst l'. rewrite handle_shape. destruct a; simpl;
      [apply length_map|apply resumed_from_length|contradiction]. }
  assert (Hsum : total_spend l' = total_spend l).
  { rewrite !total_spend_map. f_equal. subst l'.
    unfold handleInstanceAction, bind.
    pose proof (map_instances_total_cost random id0 a l k) as H.
    destruct (map_instances (update_instance random id0 a) l k) as [l1 k1].
    destruct a; simpl in *; [exact H|exact H|contradiction]. }
  now rewrite Hlen, Hsum.
Qed.

Lemma pause_and_resume_keep_spend_witness :
  let l' := fst (handleInstanceAction (fun _ => 0.5%float) "gpu-2" resume
                   initial_instances 0%nat) in
  active_gpus (overview l') = active_gpus (overview initial_instances)
  /\ current_spend (overview l') = current_spend (overview initial_instances)
  /\ aws_spend (overview l') = aws_spend (overview initial_instances).
Proof.
  apply (pause_and_resume_keep_spend (fun _ => 0.5%float) "gpu-2" resume
           initial_instances 0%nat).
  discriminate.
Defined.

(** X12.  The counters follow the records: after a pause the running count
    has lost the running records with that identifier and the AutoPaused
    count has gained the records with that identifier that were not paused;
    after a resume the running count has gained the records with that
    identifier that were not running and the AutoPaused count has lost the
    paused ones. *)
Theorem counters_follow_pause_and_resume
        (random : nat -> float) (id0 : string) (l : list Instance) (k : nat) :
  let with_id p := List.length (filter (fun i => String.eqb (id i) id0 && p (status i)) l) in
  let after a := overview (fst (handleInstanceAction random id0 a l k)) in
  (running_gpus (after pause) + with_id (fun s => status_eqb s running)
   = running_gpus (overview l))%nat
  /\ (auto_paused (after pause)
      = auto_paused (overview l) + with_id (fun s => negb (status_eqb s paused)))%nat
  /\ (running_gpus (after resume)
      = running_gpus (overview l) + with_id (fun s => negb (status_eqb s running)))%nat
  /\ (auto_paused (after resume) + with_id (fun s => status_eqb s paused)
      = auto_paused (overview l))%nat.
Proof.
  intros with_id after. subst with_id after. cbv beta.
  rewrite handle_pause, handle_resume. unfold overview. simpl.
  destruct (count_status_paused_copy id0 l) as [P1 P2].
  destruct (count_status_resumed random id0 l k) as [R1 R2].
  repeat split; assumption.
Qed.

(** ** The buttons of a row *)

Section ClickFacts.
Variable random : nat -> float.

Lemma unique_id_position (l : list Instance) (row j : nat) (i x : Instance) :
  NoDup (map id l) ->
  nth_error l row = Some i -> nth_error l j = Some x -> id x = id i -> j = row.
Proof.
  intros Hnd Hrow Hj Hid.
  rewrite NoDup_nth_error in Hnd. apply Hnd.
  - rewrite length_map. apply nth_error_Some. congruence.
  - rewrite !nth_error_map, Hrow, Hj. simpl. now rewrite Hid.
Qed.

Lemma remove_id_at (l : list Instance) :
  forall row i,
    NoDup (map id l) -> nth_error l row = Some i ->
    remove_id (id i) l = firstn row l ++ skipn (S row) l.
Proof.
  induction l as [|x l IH]; intros row i Hnd Hrow; [destruct row; discriminate|].
  simpl in Hnd. inversion Hnd as [|? ? Hx Hnd']; subst.
  destruct row as [|row]; simpl in Hrow.
  - injection Hrow as ->. unfold remove_id. simpl. rewrite String.eqb_refl. simpl.
    apply (remove_id_absent (id i) l Hx).
  - unfold remove_id. simpl.
    destruct (String.eqb_spec (id x) (id i)) as [E|E].
    + exfalso. apply Hx. rewrite E. apply in_map. eapply nth_error_In, Hrow.
    + simpl. f_equal. apply (IH row i Hnd' Hrow).
Qed.
End ClickFacts.

(** X13.  In a list with pairwise different identifiers the buttons of a
    row act on that row alone.  The first button (Pause on a running
    instance, Resume on any other) leaves every other row as it is and
    flips this one: a running instance becomes paused, any other becomes
    running, its other fields but the utilisation kept, so that the row then
    offers the opposite button.  The second button (Delete) removes the row
    and keeps the rows before and after it in order. *)
Theorem row_buttons_act_on_their_row
        (random : nat -> float) (l : list Instance) (k row : nat) (i : Instance) :
  NoDup (map id l) ->
  nth_error l row = Some i ->
  let toggled := fst (click random row 0 l k) in
  let deleted := fst (click random row 1 l k) in
  (forall j, j <> row -> nth_error toggled j = nth_error l j)
  /\ (exists i',
        nth_error toggled row = Some i'
        /\ same_static_fields i i'
        /\ status i' = (if status_eqb (status i) running then paused else running)
        /\ map fst (row_buttons i') =
             (if status_eqb (status i) running then ["Resume"; "Delete"]
              else ["Pause"; "Delete"])%string)
  /\ deleted = firstn row l ++ skipn (S row) l.
Proof.
  intros Hnd Hrow toggled deleted. subst toggled deleted.
  unfold click. rewrite Hrow. unfold row_buttons. cbn [nth_error].
  split; [|split].
  - intros j Hj.
    destruct (status_eqb (status i) running); rewrite handle_shape; simpl fst.
    + rewrite nth_error_map. destruct (nth_error l j) as [x|] eqn:Ex; [|reflexivity].
      simpl. unfold paused_copy.
      destruct (String.eqb_spec (id x) (id i)) as [E|E]; [|reflexivity].
      exfalso. apply Hj. exact (unique_id_position l row j i x Hnd Hrow Ex E).
    + destruct (nth_error l j) as [x|] eqn:Ex.
      * rewrite (resumed_from_nth random (id i) l k j x Ex).
        destruct (String.eqb_spec (id x) (id i)) as [E|E]; [|reflexivity].
        exfalso. apply Hj. exact (unique_id_position l row j i x Hnd Hrow Ex E).
      * apply nth_error_None. rewrite resumed_from_length. now apply nth_error_None.
  - destruct (status_eqb (status i) running) eqn:Es; rewrite handle_shape; simpl fst.
    + exists (with_status_utilization i paused 0).
      rewrite nth_error_map, Hrow. simpl. unfold paused_copy.
      rewrite String.eqb_refl. unfold same_static_fields. simpl. repeat split.
    + eexists. rewrite (resumed_from_nth random (id i) l k row i Hrow).
      rewrite String.eqb_refl. split; [reflexivity|].
      unfold same_static_fields. simpl. repeat split.
  - cbv beta iota. rewrite handle_delete. simpl fst. now apply remove_id_at.
Qed.

Lemma row_buttons_act_on_their_row_witness :
  let i := {| id := "gpu-2"; name := "Stable-Diffusion-XL"; gpu_type := "A10G";
              status := paused; cost_per_hour := 1.99; total_cost := 45.77;
              Dashboard.savings := 32.04; gpu_utilization := 0; uptime := "23h 0m";
              public_ip := "20.124.56.79" |} in
  let toggled := fst (click (fun _ => 0.5%float) 1 0 initial_instances 0%nat) in
  let deleted := fst (click (fun _ => 0.5%float) 1 1 initial_instances 0%nat) in
  (forall j, j <> 1%nat -> nth_error toggled j = nth_error initial_instances j)
  /\ (exists i',
        nth_error toggled 1 = Some i'
        /\ same_static_fields i i'
        /\ status i' = (if status_eqb (status i) running then paused else running)
        /\ map fst (row_buttons i') =
             (if status_eqb (status i) running then ["Resume"; "Delete"]
              else ["Pause"; "Delete"])%string)
  /\ deleted = firstn 1 initial_instances ++ skipn 2 initial_instances.
Proof.
  apply (row_buttons_act_on_their_row (fun _ => 0.5%float) initial_instances 0%nat 1%nat).
  - simpl. repeat constructor; simpl; intuition discriminate.
  - reflexivity.
Defined.

(** * Further properties of the cost calculator *)

Lemma cheaper_on_slider_check :
  forallb (fun g => forallb (fun n =>
     cheaper (slider_hours n) g) slider_range) gpu_types = true.
Proof. vm_compute. reflexivity. Qed.

(** X14.  Driven by its two controls, the calculator never fails and never
    leaves the exact figures: from the initial state (100 hours, A10G),
    after any sequence of changes the select and the range input can fire,
    the hours are an integer from 10 to 730, the GPU type is a key of the
    price table, the component renders, what it shows is what exact
    arithmetic gives, and the platform cost is below the provider cost. *)
Theorem calculator_driven_by_controls (events : list Event) :
  Forall fired_by_controls events ->
  let st := fold_left handle events initial_state in
  exists (n : Z) (v : View),
    10 <= n <= 730 /\ hours st = slider_hours n /\ In (gpuType st) gpu_options
    /\ render (hours st) (gpuType st) = Some v
    /\ SavingsSpec.view n (gpuType st) = Some v
    /\ cheaper (hours st) (gpuType st) = true.
Proof.
  intros Hev st.
  assert (Inv : exists n, 10 <= n <= 730 /\ hours st = slider_hours n
                          /\ In (gpuType st) gpu_options).
  { subst st.
    assert (H0 : exists n, 10 <= n <= 730 /\ hours initial_state = slider_hours n
                           /\ In (gpuType initial_state) gpu_options).
    { exists 100. split; [lia|]. split; [reflexivity|]. simpl. auto. }
    revert H0. generalize initial_state as st.
    induction Hev as [|ev events Hfired _ IH]; intros st Hst; [exact Hst|].
    simpl. apply IH. destruct Hst as [n [Hn [Hh Hg]]].
    destruct ev as [v|n']; simpl in *.
    - exists n. auto.
    - exists n'. auto. }
  destruct Inv as [n [Hn [Hh Hg]]].
  pose proof (on_slider_and_table
                (fun n g => view_eqb (render (slider_hours n) g) (SavingsSpec.view n g))
                render_refines_spec_check n (gpuType st) Hn Hg) as Hview.
  pose proof (on_slider_and_table (fun n g => cheaper (slider_hours n) g)
                cheaper_on_slider_check n (gpuType st) Hn Hg) as Hcheap.
  cbv beta in Hview, Hcheap. rewrite Hh.
  destruct (render (slider_hours n) (gpuType st)) as [v|] eqn:Er; [|discriminate Hview].
  exists n, v. apply view_eqb_eq in Hview.
  repeat split; auto; lia.
Qed.

Lemma calculator_driven_by_controls_witness :
  let st := fold_left handle [HoursChanged 730; GpuTypeChanged "T4"] initial_state in
  exists (n : Z) (v : View),
    10 <= n <= 730 /\ hours st = slider_hours n /\ In (gpuType st) gpu_options
    /\ render (hours st) (gpuType st) = Some v
    /\ SavingsSpec.view n (gpuType st) = Some v
    /\ cheaper (hours st) (gpuType st) = true.
Proof.
  apply (calculator_driven_by_controls [HoursChanged 730; GpuTypeChanged "T4"]).
  repeat constructor; simpl; auto; lia.
Defined.








(** * Further properties of the landing page *)

Lemma money_saved_check :
  Forall (fun k => (of_nat k * 142)%float = of_nat (142 * k)
                   /\ (of_nat k * 142 <=? 9940)%float = true) (seq 0 71).
Proof. repeat (apply Forall_cons; [split; reflexivity|]). apply Forall_nil. Qed.

(** X16.  The amount behind "Money Saved Today" is 142 times the counter,
    computed exactly: after [n] ticks it is 142 times the smaller of [n] and
    70, so it stops at 9940. *)
Theorem money_saved_follows_counter (n : nat) :
  money_saved (ticks n initial) = of_nat (142 * Nat.min n 70)
  /\ (money_saved (ticks n initial) <=? 9940)%float = true.
Proof.
  unfold money_saved. rewrite counter_after.
  pose proof money_saved_check as H. rewrite Forall_forall in H.
  apply H, in_seq. lia.
Qed.

(** X17.  At zero hours (below what the range input allows) every cost is
    0 and the ratio is 0 / 0: for each GPU type of the table the three
    amounts show as 0.00 and the percentage shows as NaN. *)
Theorem zero_hours_show_nan (g : string) :
  In g gpu_options ->
  render 0 g =
    Some {| awsCostText := Digits "0.00"; ourCostText := Digits "0.00";
            savingsText := Digits "0.00"; savingsPercentText := Digits "NaN" |}.
Proof.
  intros [<-|[<-|[<-|[]]]]; vm_compute; reflexivity.
Qed.

Lemma zero_hours_show_nan_witness :
  render 0 "A100" =
    Some {| awsCostText := Digits "0.00"; ourCostText := Digits "0.00";
            savingsText := Digits "0.00"; savingsPercentText := Digits "NaN" |}.
Proof.
  apply (zero_hours_show_nan "A100"). simpl. auto.
Defined.

(** * The last action on an identifier wins *)

Section LastActionFacts.
Variable random : nat -> float.

Lemma paused_copy_resumed (id0 : string) (l : list Instance) :
  forall k, map (paused_copy id0) (resumed_from random id0 k l) = map (paused_copy id0) l.
Proof.
  induction l as [|i l IH]; intros k; simpl; [reflexivity|].
  destruct (String.eqb (id i) id0) eqn:E; simpl; rewrite IH; [|reflexivity].
  f_equal. unfold paused_copy. simpl. now rewrite E.
Qed.

Lemma resumed_from_paused_copy (id0 : string) (l : list Instance) :
  forall k, resumed_from random id0 k (map (paused_copy id0) l) = resumed_from random id0 k l.
Proof.
  induction l as [|i l IH]; intros k; simpl; [reflexivity|].
  rewrite paused_copy_id.
  destruct (String.eqb (id i) id0) eqn:E; rewrite IH; [|unfold paused_copy; now rewrite E].
  f_equal. unfold paused_copy. now rewrite E.
Qed.
End LastActionFacts.

(** X18.  Of a pause and a resume on the same identifier the later one
    decides: a pause after a resume leaves the list that the pause alone
    would, and a resume after a pause leaves the list that the resume alone
    would, with the same draws. *)
Theorem last_of_pause_and_resume_wins
        (random : nat -> float) (id0 : string) (l : list Instance) (k : nat) :
  fst (handleInstanceAction random id0 pause
         (fst (handleInstanceAction random id0 resume l k)) k)
  = fst (handleInstanceAction random id0 pause l k)
  /\ handleInstanceAction random id0 resume
       (fst (handleInstanceAction random id0 pause l k)) k
     = handleInstanceAction random id0 resume l k.
Proof.
  repeat (rewrite ?handle_pause, ?handle_resume; simpl fst).
  split.
  - apply paused_copy_resumed.
  - rewrite resumed_from_paused_copy. f_equal. f_equal.
    unfold count_id. induction l as [|i l IH]; simpl; [reflexivity|].
    rewrite paused_copy_id. destruct (String.eqb (id i) id0); simpl; now rewrite IH.
Qed.
